(** * kernel/memremap.c: remap negotiation and the ZONE_DEVICE section registry

    A shallow embedding of [memremap], [devm_memremap_pages] and their
    helpers.  The kernel services the file calls but does not define
    (the resource classifier, the ioremap family, memory hotplug, devres,
    header constants) are the fields of the [Platform] class.  Global state
    ([pgmap_radix], the devres list) is threaded explicitly, together with
    a trace of the calls made to the collaborators.

    The embedding is sequential: [pgmap_lock] and the RCU read section
    around [find_dev_pagemap] (with its [WARN_ON_ONCE]) do not appear.
    [memunmap], [devm_memremap] and [devm_memunmap] run on the core state
    extended with their own devres nodes and the calls to [iounmap]. *)

From stdpp Require Import gmap strings list fin_maps.
From Stdlib Require Import ZArith Lia.

Open Scope Z_scope.

(** ** Machine integers and pointers *)

Definition NULL : Z := 0.

(** ** Data *)

(** [struct device *]: an opaque handle. *)
Definition device : Type := Z.

(** [struct resource], with the inclusive end the kernel uses. *)
Record resource : Type := { start : Z; end_ : Z }.

Record dev_pagemap : Type := { dev : device }.

Record page_map : Type := {
  res : resource;
  ref : Z;
  pgmap : dev_pagemap
}.

(** Result of [region_intersects]. *)
Inductive region : Type :=
  | REGION_INTERSECTS
  | REGION_DISJOINT
  | REGION_MIXED.

#[global] Instance region_eq_dec : EqDecision region.
Proof. solve_decision. Defined.

#[global] Instance resource_eq_dec : EqDecision resource.
Proof. solve_decision. Defined.

(** ** Collaborators

    Everything [memremap.c] takes from headers and other translation
    units.  Functions that can fail are given by their answer at each
    argument; the call itself is recorded in the trace below. *)
Class Platform : Type := {
  (** width of [unsigned long], of pointers and, where CONFIG_ZONE_DEVICE
      can be set, of [resource_size_t] *)
  BITS_PER_LONG : Z;
  page : Type;
  PAGE_SHIFT : Z;
  PA_SECTION_SHIFT : Z;
  MEMREMAP_WB : Z;
  MEMREMAP_WT : Z;
  ENXIO : Z;
  ENOMEM : Z;
  EBUSY : Z;
  EEXIST : Z;
  pfn_to_page : Z -> page;
  PageHighMem : page -> bool;
  __va : Z -> Z;
  ERR_PTR : Z -> Z;
  resource_size : resource -> Z;
  ALIGN : Z -> Z -> Z;
  region_intersects : Z -> Z -> string -> region;
  ioremap_cache : Z -> Z -> Z;
  ioremap_wt : Z -> Z -> Z;
  dev_to_node : device -> Z;
  numa_mem_id : Z;
  arch_add_memory : Z -> Z -> Z -> bool -> Z;
  (** does [devres_alloc_node] obtain memory for this device *)
  devres_alloc_ok : device -> bool;
  (** does [radix_tree_insert] obtain its nodes for this index *)
  radix_node_alloc_ok : Z -> bool
}.

(** ** State and trace *)

Inductive event : Type :=
  | WARN_memremap_mixed (offset size : Z)
  | WARN_memremap_ram (offset size : Z)
  | WARN_pages_mixed (r : resource)
  | call_ioremap_cache (offset size : Z)
  | call_ioremap_wt (offset size : Z)
  | call_radix_tree_insert (index : Z)
  | call_radix_tree_delete (index : Z)
  | call_arch_add_memory (nid align_start align_size : Z)
  | call_arch_remove_memory (align_start align_size : Z)
  | call_devres_alloc_node (d : device)
  | call_devres_add (d : device)
  | call_devres_free
  | dev_err_collides (d : device) (r : resource) (owner : device)
  | dev_err_failed (d : device) (error : Z).

Record state : Type := {
  (** [static RADIX_TREE(pgmap_radix, GFP_KERNEL)] *)
  pgmap_radix : gmap Z page_map;
  (** release hooks [devm_memremap_pages_release] registered by [devres_add] *)
  devres : list (device * page_map);
  trace : list event
}.

Definition set_radix (t : gmap Z page_map) (s : state) : state :=
  {| pgmap_radix := t; devres := devres s; trace := trace s |}.

Definition add_devres (h : device * page_map) (s : state) : state :=
  {| pgmap_radix := pgmap_radix s; devres := h :: devres s; trace := trace s |}.

Definition emit (e : event) (s : state) : state :=
  {| pgmap_radix := pgmap_radix s; devres := devres s; trace := trace s ++ [e] |}.

(** ** The monad: state passing, [None] when a loop exhausts its fuel *)

Definition M (A : Type) : Type := state -> option (A * state).

Definition ret {A : Type} (a : A) : M A := fun s => Some (a, s).

Definition bind {A B : Type} (m : M A) (k : A -> M B) : M B :=
  fun s => match m s with
           | Some (a, s') => k a s'
           | None => None
           end.

Definition out_of_fuel {A : Type} : M A := fun _ => None.

Definition log (e : event) : M unit := fun s => Some (tt, emit e s).

Notation "'let*' x ':=' m 'in' k" := (bind m (fun x => k))
  (at level 10, x name, m at level 100, k at level 200).
Notation "m '>>' k" := (bind m (fun _ => k))
  (at level 60, right associativity).

Section Memremap.
Context `{P : Platform}.

(** Arithmetic on [unsigned long] and [resource_size_t] wraps. *)
Definition wrap (x : Z) : Z := x mod 2 ^ BITS_PER_LONG.

(** ** Collaborator calls, logged *)

Definition do_ioremap_cache (offset size : Z) : M Z :=
  log (call_ioremap_cache offset size) >> ret (ioremap_cache offset size).

Definition do_ioremap_wt (offset size : Z) : M Z :=
  log (call_ioremap_wt offset size) >> ret (ioremap_wt offset size).

Definition do_arch_add_memory (nid align_start align_size : Z) (for_device : bool) : M Z :=
  log (call_arch_add_memory nid align_start align_size) >>
  ret (arch_add_memory nid align_start align_size for_device).

Definition do_arch_remove_memory (align_start align_size : Z) : M unit :=
  log (call_arch_remove_memory align_start align_size).

(** [devres_alloc_node] returns zeroed memory, or NULL. *)
Definition do_devres_alloc_node (d : device) : M (option page_map) :=
  log (call_devres_alloc_node d) >>
  ret (if devres_alloc_ok d
       then Some {| res := {| start := 0; end_ := 0 |}; ref := NULL; pgmap := {| dev := 0 |} |}
       else None).

Definition devres_add (d : device) (pm : page_map) : M unit :=
  fun s => Some (tt, add_devres (d, pm) (emit (call_devres_add d) s)).

Definition devres_free (pm : page_map) : M unit := log call_devres_free.

(** ** The radix tree, as a finite map from index to item

    [radix_tree_insert] refuses an occupied slot with [-EEXIST] and fails
    with [-ENOMEM] when it cannot allocate; [radix_tree_delete] of an
    absent index does nothing and yields NULL. *)

Definition radix_tree_lookup (index : Z) : M (option page_map) :=
  fun s => Some (pgmap_radix s !! index, s).

Definition radix_tree_insert (index : Z) (item : page_map) : M Z :=
  fun s =>
    let s := emit (call_radix_tree_insert index) s in
    match pgmap_radix s !! index with
    | Some _ => Some (- EEXIST, s)
    | None =>
        if radix_node_alloc_ok index
        then Some (0, set_radix (<[index := item]> (pgmap_radix s)) s)
        else Some (- ENOMEM, s)
    end.

Definition radix_tree_delete (index : Z) : M (option page_map) :=
  fun s =>
    let s := emit (call_radix_tree_delete index) s in
    Some (pgmap_radix s !! index, set_radix (delete index (pgmap_radix s)) s).

(** ** memremap *)

Definition try_ram_remap (offset size : Z) : Z :=
  let page := pfn_to_page (Z.shiftr offset PAGE_SHIFT) in
  if negb (PageHighMem page) then __va offset else NULL.

Definition memremap (offset size flags : Z) : M Z :=
  let is_ram := region_intersects offset size "System RAM" in
  let addr := NULL in
  if decide (is_ram = REGION_MIXED) then
    log (WARN_memremap_mixed offset size) >> ret NULL
  else
    let* fa :=
      (if negb (Z.land flags MEMREMAP_WB =? 0) then
         let flags := Z.land flags (wrap (Z.lnot MEMREMAP_WB)) in
         let addr :=
           if decide (is_ram = REGION_INTERSECTS)
           then try_ram_remap offset size else addr in
         let* addr :=
           (if addr =? NULL then do_ioremap_cache offset size else ret addr) in
         ret (flags, addr)
       else ret (flags, addr)) in
    let flags := fst fa in
    let addr := snd fa in
    if (addr =? NULL) && bool_decide (is_ram = REGION_INTERSECTS)
       && negb (flags =? 0) then
      log (WARN_memremap_ram offset size) >> ret NULL
    else
      (* the store [flags &= ~MEMREMAP_WT] that precedes [ioremap_wt] is
         dead: [flags] is not read again *)
      if (addr =? NULL) && negb (Z.land flags MEMREMAP_WT =? 0) then
        do_ioremap_wt offset size
      else ret addr.

(** ** The section registry (CONFIG_ZONE_DEVICE) *)

Definition SECTION_SIZE : Z := wrap (Z.shiftl 1 PA_SECTION_SHIFT).

Definition SECTION_MASK : Z := wrap (Z.lnot (wrap (Z.shiftl 1 PA_SECTION_SHIFT) - 1)).

(** The [for] loop of [pgmap_radix_release], entered at [key]. *)
Fixpoint pgmap_radix_release_from (fuel : nat) (r : resource) (key : Z) : M unit :=
  match fuel with
  | O => out_of_fuel
  | S fuel' =>
      if key <=? end_ r then
        radix_tree_delete (Z.shiftr key PA_SECTION_SHIFT) >>
        pgmap_radix_release_from fuel' r (wrap (key + SECTION_SIZE))
      else ret tt
  end.

Definition pgmap_radix_release (fuel : nat) (r : resource) : M unit :=
  pgmap_radix_release_from fuel r (start r).

Definition section_align_start (r : resource) : Z :=
  Z.land (start r) (wrap (Z.lnot (SECTION_SIZE - 1))).

Definition section_align_size (r : resource) : Z :=
  ALIGN (resource_size r) SECTION_SIZE.

Definition devm_memremap_pages_release (fuel : nat) (d : device) (data : page_map) : M unit :=
  let r := res data in
  pgmap_radix_release fuel r >>
  let align_start := section_align_start r in
  let align_size := section_align_size r in
  do_arch_remove_memory align_start align_size.

Definition find_dev_pagemap (phys : Z) : M (option dev_pagemap) :=
  let* page_map := radix_tree_lookup (Z.shiftr phys PA_SECTION_SHIFT) in
  ret (match page_map with
       | Some pm => Some (pgmap pm)
       | None => None
       end).

(** The registration loop of [devm_memremap_pages], entered at [key];
    it yields the value of [error] on leaving the loop. *)
Fixpoint pgmap_radix_insert_from (fuel : nat) (d : device) (r : resource)
    (pm : page_map) (key : Z) : M Z :=
  match fuel with
  | O => out_of_fuel
  | S fuel' =>
      if key <=? end_ r then
        let* dup := find_dev_pagemap key in
        match dup with
        | Some owner =>
            log (dev_err_collides d r (dev owner)) >> ret (- EBUSY)
        | None =>
            let* error := radix_tree_insert (Z.shiftr key PA_SECTION_SHIFT) pm in
            if negb (error =? 0) then
              log (dev_err_failed d error) >> ret error
            else
              pgmap_radix_insert_from fuel' d r pm (wrap (key + SECTION_SIZE))
        end
      else ret 0
  end.

Definition devm_memremap_pages (fuel : nat) (d : device) (r : resource) : M Z :=
  let is_ram := region_intersects (start r) (resource_size r) "System RAM" in
  if decide (is_ram = REGION_MIXED) then
    log (WARN_pages_mixed r) >> ret (ERR_PTR (- ENXIO))
  else if decide (is_ram = REGION_INTERSECTS) then
    ret (__va (start r))
  else
    let* alloc := do_devres_alloc_node d in
    match alloc with
    | None => ret (ERR_PTR (- ENOMEM))
    | Some zeroed =>
        let pm := {| res := r; ref := ref zeroed; pgmap := {| dev := d |} |} in
        let err_radix (error : Z) : M Z :=
          pgmap_radix_release fuel r >>
          devres_free pm >>
          ret (ERR_PTR error) in
        let* error := pgmap_radix_insert_from fuel d r pm (start r) in
        if negb (error =? 0) then err_radix error
        else
          let nid := dev_to_node d in
          let nid := if nid <? 0 then numa_mem_id else nid in
          let align_start := section_align_start r in
          let align_size := section_align_size r in
          let* error := do_arch_add_memory nid align_start align_size true in
          if negb (error =? 0) then err_radix error
          else
            devres_add d pm >>
            ret (__va (start r))
    end.

(** ** What a walk reaches

    The loops step [key] from [res->start] by [SECTION_SIZE] while
    [key <= res->end]; these functions name the number of iterations and
    the section indices visited, for a walk that does not wrap. *)

Definition walk_len (key e : Z) : nat :=
  if key <=? e then Z.to_nat ((e - key) / SECTION_SIZE + 1) else O.

Fixpoint walk_sections (n : nat) (index : Z) : list Z :=
  match n with
  | O => []
  | S n' => index :: walk_sections n' (index + 1)
  end.

Definition sections_walked (r : resource) : list Z :=
  walk_sections (walk_len (start r) (end_ r)) (Z.shiftr (start r) PA_SECTION_SHIFT).

(** A section is covered by a range when some address of the range lies in it. *)
Definition section_covered (r : resource) (index : Z) : Prop :=
  exists phys, start r <= phys <= end_ r /\ Z.shiftr phys PA_SECTION_SHIFT = index.

Fixpoint delete_all (indices : list Z) (t : gmap Z page_map) : gmap Z page_map :=
  match indices with
  | [] => t
  | i :: rest => delete_all rest (delete i t)
  end.

Fixpoint insert_all (indices : list Z) (pm : page_map) (t : gmap Z page_map)
    : gmap Z page_map :=
  match indices with
  | [] => t
  | i :: rest => insert_all rest pm (<[i := pm]> t)
  end.

(** The state [pgmap_radix_release] leaves behind. *)
Definition released (indices : list Z) (s : state) : state :=
  {| pgmap_radix := delete_all indices (pgmap_radix s);
     devres := devres s;
     trace := trace s ++ map call_radix_tree_delete indices |}.

(** The state a registration loop without collision leaves behind. *)
Definition registered (indices : list Z) (pm : page_map) (s : state) : state :=
  {| pgmap_radix := insert_all indices pm (pgmap_radix s);
     devres := devres s;
     trace := trace s ++ map call_radix_tree_insert indices |}.

(** The record [devm_memremap_pages] installs for device [d] and range [r]. *)
Definition claim_page_map (d : device) (r : resource) : page_map :=
  {| res := r; ref := NULL; pgmap := {| dev := d |} |}.

(** The node handed to [arch_add_memory]. *)
Definition claim_nid (d : device) : Z :=
  if dev_to_node d <? 0 then numa_mem_id else dev_to_node d.

(** ** Well-formed configurations and ranges *)

(** The two request flags are distinct bits of an [unsigned long]. *)
Definition flags_ok : Prop :=
  MEMREMAP_WB <> 0 /\
  0 < MEMREMAP_WT < 2 ^ BITS_PER_LONG /\
  Z.land MEMREMAP_WB MEMREMAP_WT = 0.

Definition section_shift_ok : Prop := 0 <= PA_SECTION_SHIFT < BITS_PER_LONG.

(** The range starts at a physical address and its walk cannot wrap. *)
Definition range_ok (r : resource) : Prop :=
  0 <= start r /\ end_ r + SECTION_SIZE < 2 ^ BITS_PER_LONG.

End Memremap.

(** ** Concrete machines

    The header definitions as the kernel has them, over the word size, the
    section size, the base of the linear map, a classifier, a high-memory
    predicate and the answers of the fallible services. *)
Definition machine (bits section_shift page_offset : Z)
    (classify : Z -> Z -> region) (highmem : Z -> bool)
    (ioremap_result : Z) (hotplug : Z -> Z -> Z) : Platform := {|
  BITS_PER_LONG := bits;
  page := Z;
  PAGE_SHIFT := 12;
  PA_SECTION_SHIFT := section_shift;
  MEMREMAP_WB := Z.shiftl 1 0;
  MEMREMAP_WT := Z.shiftl 1 1;
  ENXIO := 6;
  ENOMEM := 12;
  EBUSY := 16;
  EEXIST := 17;
  pfn_to_page := fun pfn => pfn;
  PageHighMem := highmem;
  __va := fun x => (x + page_offset) mod 2 ^ bits;
  ERR_PTR := fun error => error mod 2 ^ bits;
  resource_size := fun r => (end_ r - start r + 1) mod 2 ^ bits;
  ALIGN := fun x a =>
    Z.land ((x + a - 1) mod 2 ^ bits) (Z.lnot (a - 1) mod 2 ^ bits);
  region_intersects := fun offset size _ => classify offset size;
  ioremap_cache := fun _ _ => ioremap_result;
  ioremap_wt := fun _ _ => ioremap_result;
  dev_to_node := fun _ => -1;
  numa_mem_id := 0;
  arch_add_memory := fun _ align_start align_size _ => hotplug align_start align_size;
  devres_alloc_ok := fun _ => true;
  radix_node_alloc_ok := fun _ => true
|}.

Definition empty_state : state :=
  {| pgmap_radix := ∅; devres := []; trace := [] |}.

(** A 64-bit machine with 128 MiB sections whose first 4 GiB are System
    RAM and nothing above is; hotplug answers [hotplug_result]. *)
Definition classify_4g (offset size : Z) : region :=
  if offset + size <=? 0x100000000 then REGION_INTERSECTS
  else if 0x100000000 <=? offset then REGION_DISJOINT
  else REGION_MIXED.

Definition zone_device (hotplug_result : Z) : Platform :=
  machine 64 27 0xffff880000000000 classify_4g (fun _ => false)
    0xffffc90000000000 (fun _ _ => hotplug_result).

(** A 32-bit machine with 1 GiB of System RAM, of which the pages from
    896 MiB on are high memory. *)
Definition highmem_machine : Platform :=
  machine 32 27 0xc0000000
    (fun offset size =>
       if offset + size <=? 0x40000000 then REGION_INTERSECTS
       else if 0x40000000 <=? offset then REGION_DISJOINT
       else REGION_MIXED)
    (fun pfn => 0x38000 <=? pfn) 0xf8000000 (fun _ _ => 0).

(** The same machine when [ioremap_cache] and [ioremap_wt] fail. *)
Definition highmem_machine_no_ioremap : Platform :=
  machine 32 27 0xc0000000
    (fun offset size =>
       if offset + size <=? 0x40000000 then REGION_INTERSECTS
       else if 0x40000000 <=? offset then REGION_DISJOINT
       else REGION_MIXED)
    (fun pfn => 0x38000 <=? pfn) NULL (fun _ _ => 0).

(** Two devices and three device-memory ranges above the RAM of
    [zone_device]: section 32 exactly; the upper half of section 32 with
    the lower half of section 33; sections 34 and 35. *)
Definition dev_A : device := 1.
Definition dev_B : device := 2.

Definition range_A : resource := {| start := 0x100000000; end_ := 0x107ffffff |}.
Definition range_B : resource := {| start := 0x104000000; end_ := 0x10bffffff |}.
Definition range_C : resource := {| start := 0x110000000; end_ := 0x11fffffff |}.

(** A range of System RAM, and a range that straddles the end of RAM. *)
Definition range_R : resource := {| start := 0x8000000; end_ := 0xfffffff |}.
Definition range_M : resource := {| start := 0xfc000000; end_ := 0x103ffffff |}.

(** The state after [dev_A] has claimed [range_A] on the empty registry. *)
Definition claimed_A : state :=
  {| pgmap_radix := {[ 32 := {| res := range_A; ref := NULL; pgmap := {| dev := dev_A |} |} ]};
     devres := [(dev_A, {| res := range_A; ref := NULL; pgmap := {| dev := dev_A |} |})];
     trace := [call_devres_alloc_node dev_A; call_radix_tree_insert 32;
               call_arch_add_memory 0 0x100000000 0x8000000;
               call_devres_add dev_A] |}.

(** The state after [dev_B] has claimed [range_B] on the empty registry. *)
Definition claimed_B : state :=
  {| pgmap_radix := {[ 32 := {| res := range_B; ref := NULL; pgmap := {| dev := dev_B |} |} ]};
     devres := [(dev_B, {| res := range_B; ref := NULL; pgmap := {| dev := dev_B |} |})];
     trace := [call_devres_alloc_node dev_B; call_radix_tree_insert 32;
               call_arch_add_memory 0 0x100000000 0x8000000;
               call_devres_add dev_B] |}.

(** Section 33 exactly: it shares the upper half of [range_B]'s extent. *)
Definition range_D : resource := {| start := 0x108000000; end_ := 0x10fffffff |}.

(** The state after [dev_B] has tried to claim [range_B] on [claimed_A]. *)
Definition collided_B : state :=
  {| pgmap_radix := ∅;
     devres := devres claimed_A;
     trace := trace claimed_A
              ++ [call_devres_alloc_node dev_B;
                  dev_err_collides dev_B range_B dev_A;
                  call_radix_tree_delete 32;
                  call_devres_free] |}.

(** ** memunmap and the devm_memremap family

    The state of the core extended with the devres nodes whose release
    function is [devm_memremap_release] (each holds the mapped address)
    and with the calls to [iounmap] and the [WARN_ON] of [devm_memunmap]. *)

Class UnmapPlatform : Type := {
  is_vmalloc_addr : Z -> bool;
  ENOENT : Z
}.

Inductive unmap_event : Type :=
  | call_iounmap (addr : Z)
  | WARN_ON_devres_release (d : device) (addr : Z).

Record devm_state : Type := {
  core : state;
  memremap_devres : list (device * Z);
  unmap_trace : list unmap_event
}.

Definition set_core (s : state) (ds : devm_state) : devm_state :=
  {| core := s; memremap_devres := memremap_devres ds; unmap_trace := unmap_trace ds |}.

Definition set_memremap_devres (l : list (device * Z)) (ds : devm_state) : devm_state :=
  {| core := core ds; memremap_devres := l; unmap_trace := unmap_trace ds |}.

Definition emit_unmap (e : unmap_event) (ds : devm_state) : devm_state :=
  {| core := core ds; memremap_devres := memremap_devres ds;
     unmap_trace := unmap_trace ds ++ [e] |}.

Definition DM (A : Type) : Type := devm_state -> option (A * devm_state).

Definition dret {A : Type} (a : A) : DM A := fun ds => Some (a, ds).

Definition dbind {A B : Type} (m : DM A) (k : A -> DM B) : DM B :=
  fun ds => match m ds with
            | Some (a, ds') => k a ds'
            | None => None
            end.

(** Run a computation of the core on the core part of the state. *)
Definition lift {A : Type} (m : M A) : DM A :=
  fun ds => match m (core ds) with
            | Some (a, s') => Some (a, set_core s' ds)
            | None => None
            end.

Notation "'let+' x ':=' m 'in' k" := (dbind m (fun x => k))
  (at level 10, x name, m at level 100, k at level 200).

Section Devm.
Context `{P : Platform} `{U : UnmapPlatform}.

Definition iounmap (addr : Z) : DM unit :=
  fun ds => Some (tt, emit_unmap (call_iounmap addr) ds).

Definition memunmap (addr : Z) : DM unit :=
  if is_vmalloc_addr addr then iounmap addr else dret tt.

(** [res] is the pointer the node holds, which the source reads through
    its [void **] cast. *)
Definition devm_memremap_release (d : device) (res : Z) : DM unit :=
  memunmap res.

Definition devm_memremap_match (d : device) (res : Z) (match_data : Z) : bool :=
  res =? match_data.

(** [devres_alloc_node] for a node holding one pointer: zeroed, or NULL. *)
Definition do_devres_alloc_ptr (d : device) : M (option Z) :=
  log (call_devres_alloc_node d) >>
  ret (if devres_alloc_ok d then Some NULL else None).

Definition devres_add_ptr (d : device) (ptr : Z) : DM unit :=
  fun ds =>
    Some (tt, set_memremap_devres ((d, ptr) :: memremap_devres ds)
                (set_core (emit (call_devres_add d) (core ds)) ds)).

Definition devm_memremap (d : device) (offset size flags : Z) : DM Z :=
  let+ ptr := lift (do_devres_alloc_ptr d) in
  match ptr with
  | None => dret (ERR_PTR (- ENOMEM))
  | Some _ =>
      let+ addr := lift (memremap offset size flags) in
      if negb (addr =? NULL) then
        let+ _ := devres_add_ptr d addr in
        dret addr
      else
        let+ _ := lift (log call_devres_free) in
        dret (ERR_PTR (- ENXIO))
  end.

(** The nodes of [d] are searched from the most recently added; the
    first one [devm_memremap_match] accepts is unlinked. *)
Fixpoint devres_remove (d : device) (match_data : Z) (l : list (device * Z))
    : option (Z * list (device * Z)) :=
  match l with
  | [] => None
  | (d', res) :: rest =>
      if (d' =? d) && devm_memremap_match d res match_data then Some (res, rest)
      else match devres_remove d match_data rest with
           | Some (found, rest') => Some (found, (d', res) :: rest')
           | None => None
           end
  end.

(** [devres_release(dev, devm_memremap_release, devm_memremap_match, addr)]:
    unlink the matching node and run its release function, or fail with
    [-ENOENT]. *)
Definition devres_release (d : device) (match_data : Z) : DM Z :=
  fun ds =>
    match devres_remove d match_data (memremap_devres ds) with
    | Some (res, rest) =>
        match devm_memremap_release d res (set_memremap_devres rest ds) with
        | Some (_, ds') => Some (0, ds')
        | None => None
        end
    | None => Some (- ENOENT, ds)
    end.

Definition devm_memunmap (d : device) (addr : Z) : DM unit :=
  let+ error := devres_release d addr in
  if negb (error =? 0) then
    fun ds => Some (tt, emit_unmap (WARN_ON_devres_release d addr) ds)
  else dret tt.

End Devm.

Section ErrorPath.
Context `{P : Platform}.

(** The code at the labels [err_add_memory] and [err_radix]. *)
Definition err_radix (fuel : nat) (r : resource) (pm : page_map) (error : Z) : M Z :=
  pgmap_radix_release fuel r >>
  devres_free pm >>
  ret (ERR_PTR error).

End ErrorPath.

(** A machine with other answers from the two allocators. *)
Definition with_allocators (base : Platform) (devres_ok : device -> bool)
    (radix_ok : Z -> bool) : Platform := {|
  BITS_PER_LONG := @BITS_PER_LONG base;
  page := @page base;
  PAGE_SHIFT := @PAGE_SHIFT base;
  PA_SECTION_SHIFT := @PA_SECTION_SHIFT base;
  MEMREMAP_WB := @MEMREMAP_WB base;
  MEMREMAP_WT := @MEMREMAP_WT base;
  ENXIO := @ENXIO base;
  ENOMEM := @ENOMEM base;
  EBUSY := @EBUSY base;
  EEXIST := @EEXIST base;
  pfn_to_page := @pfn_to_page base;
  PageHighMem := @PageHighMem base;
  __va := @__va base;
  ERR_PTR := @ERR_PTR base;
  resource_size := @resource_size base;
  ALIGN := @ALIGN base;
  region_intersects := @region_intersects base;
  ioremap_cache := @ioremap_cache base;
  ioremap_wt := @ioremap_wt base;
  dev_to_node := @dev_to_node base;
  numa_mem_id := @numa_mem_id base;
  arch_add_memory := @arch_add_memory base;
  devres_alloc_ok := devres_ok;
  radix_node_alloc_ok := radix_ok
|}.


(** [zone_device] when devres cannot allocate. *)
Definition zone_device_devres_oom : Platform :=
  with_allocators (zone_device 0) (fun _ => false) (fun _ => true).

(** An empty resource above RAM, and one that ends at the last address. *)
Definition range_empty : resource := {| start := 0x110000000; end_ := 0x10fffffff |}.
Definition range_top : resource :=
  {| start := 0xffffffff00000000; end_ := 0xffffffffffffffff |}.

(** The last section of the address space but for its last byte. *)
Definition range_near_top : resource :=
  {| start := 0xfffffffff8000000; end_ := 0xfffffffffffffffe |}.

(** A machine on which the addresses [ioremap] hands out are in vmalloc
    space and the linear map is not. *)
Definition vmalloc_above (base : Z) : UnmapPlatform :=
  {| is_vmalloc_addr := fun addr => base <=? addr; ENOENT := 2 |}.

Definition empty_devm_state : devm_state :=
  {| core := empty_state; memremap_devres := []; unmap_trace := [] |}.

(** * Properties *)

Section Properties.
Context `{P : Platform}.

Implicit Types (s : state) (r : resource) (t : gmap Z page_map).

(** ** Arithmetic of the walk *)

Lemma SECTION_SIZE_pow2 : section_shift_ok -> SECTION_SIZE = 2 ^ PA_SECTION_SHIFT.
Proof.
  intros [H0 H1]. unfold SECTION_SIZE, wrap.
  rewrite Z.shiftl_1_l. apply Z.mod_small. split.
  - apply Z.pow_nonneg. lia.
  - apply Z.pow_lt_mono_r; lia.
Qed.

Lemma SECTION_SIZE_pos : section_shift_ok -> 0 < SECTION_SIZE.
Proof.
  intros H. rewrite (SECTION_SIZE_pow2 H). apply Z.pow_pos_nonneg; [lia | apply H].
Qed.

Lemma shiftr_next_section key :
  section_shift_ok ->
  Z.shiftr (key + SECTION_SIZE) PA_SECTION_SHIFT = Z.shiftr key PA_SECTION_SHIFT + 1.
Proof.
  intros H. rewrite (SECTION_SIZE_pow2 H).
  destruct H as [H0 _]. rewrite !Z.shiftr_div_pow2 by assumption.
  replace (key + 2 ^ PA_SECTION_SHIFT) with (key + 1 * 2 ^ PA_SECTION_SHIFT) by lia.
  apply Z.div_add. apply Z.pow_nonzero; lia.
Qed.

Lemma walk_len_stop key e : e < key -> walk_len key e = O.
Proof. intros H. unfold walk_len. destruct (Z.leb_spec key e); [lia | reflexivity]. Qed.

Lemma walk_len_step key e :
  section_shift_ok -> key <= e ->
  walk_len key e = S (walk_len (key + SECTION_SIZE) e).
Proof.
  intros Hs Hle. pose proof (SECTION_SIZE_pos Hs) as Hpos.
  unfold walk_len. destruct (Z.leb_spec key e); [| lia].
  destruct (Z.leb_spec (key + SECTION_SIZE) e) as [Hn | Hn].
  - replace (e - key) with ((e - (key + SECTION_SIZE)) + 1 * SECTION_SIZE) by lia.
    rewrite Z.div_add by lia.
    assert (0 <= (e - (key + SECTION_SIZE)) / SECTION_SIZE)
      by (apply Z.div_pos; lia).
    lia.
  - rewrite Z.div_small by lia. reflexivity.
Qed.

Lemma elem_of_walk_sections n index j :
  j ∈ walk_sections n index <-> index <= j < index + Z.of_nat n.
Proof.
  revert index. induction n as [| n IH]; intros index; simpl.
  - rewrite elem_of_nil. lia.
  - rewrite elem_of_cons, IH. lia.
Qed.

Lemma walk_len_zero key e :
  section_shift_ok -> walk_len key e = O -> e < key.
Proof.
  intros Hs Hz. destruct (Z_lt_le_dec e key) as [Hlt | Hle]; [assumption |].
  rewrite (walk_len_step key e Hs Hle) in Hz. discriminate.
Qed.

Lemma wrap_small x : 0 <= x < 2 ^ BITS_PER_LONG -> wrap x = x.
Proof. intros H. unfold wrap. apply Z.mod_small. assumption. Qed.

Lemma shiftr_le a b : 0 <= PA_SECTION_SHIFT -> a <= b ->
  Z.shiftr a PA_SECTION_SHIFT <= Z.shiftr b PA_SECTION_SHIFT.
Proof.
  intros Hs Hab. rewrite !Z.shiftr_div_pow2 by assumption.
  apply Z.div_le_mono; [apply Z.pow_pos_nonneg; lia | assumption].
Qed.

(** Every section the walk reaches holds an address of the range. *)
Lemma sections_walked_covered r j :
  section_shift_ok -> j ∈ sections_walked r -> section_covered r j.
Proof.
  intros Hs Hj. pose proof (SECTION_SIZE_pos Hs) as Hpos.
  unfold sections_walked in Hj. apply elem_of_walk_sections in Hj.
  unfold walk_len in Hj. destruct (Z.leb_spec (start r) (end_ r)) as [Hle | Hgt].
  2: { simpl in Hj. lia. }
  assert (0 <= (end_ r - start r) / SECTION_SIZE) as Hq by (apply Z.div_pos; lia).
  rewrite Z2Nat.id in Hj by lia.
  set (m := j - Z.shiftr (start r) PA_SECTION_SHIFT).
  exists (start r + m * SECTION_SIZE). split.
  - assert (m <= (end_ r - start r) / SECTION_SIZE) as Hm by (unfold m; lia).
    assert (m * SECTION_SIZE <= end_ r - start r).
    { transitivity ((end_ r - start r) / SECTION_SIZE * SECTION_SIZE).
      - apply Z.mul_le_mono_nonneg_r; lia.
      - rewrite Z.mul_comm. apply Z.mul_div_le. lia. }
    assert (0 <= m * SECTION_SIZE) by (apply Z.mul_nonneg_nonneg; unfold m; lia).
    lia.
  - rewrite (SECTION_SIZE_pow2 Hs). destruct Hs as [H0 _].
    rewrite !Z.shiftr_div_pow2 by assumption.
    rewrite Z.div_add by (apply Z.pow_nonzero; lia).
    rewrite <- Z.shiftr_div_pow2 by assumption. unfold m. lia.
Qed.

(** The walk reaches every covered section when the start lies no deeper
    in its section than the end does in its own, as for an aligned start. *)
Lemma sections_walked_complete r j :
  section_shift_ok ->
  start r mod SECTION_SIZE <= end_ r mod SECTION_SIZE ->
  section_covered r j -> j ∈ sections_walked r.
Proof.
  intros Hs Hoff (phys & [Hlo Hhi] & Hj). pose proof (SECTION_SIZE_pos Hs) as Hpos.
  unfold sections_walked. apply elem_of_walk_sections.
  unfold walk_len. destruct (Z.leb_spec (start r) (end_ r)) as [Hle | Hgt]; [| lia].
  assert (0 <= (end_ r - start r) / SECTION_SIZE) as Hq by (apply Z.div_pos; lia).
  rewrite Z2Nat.id by lia.
  assert (Z.shiftr (start r) PA_SECTION_SHIFT <= j) as Hj1
    by (subst j; apply shiftr_le; [apply Hs | assumption]).
  assert (j <= Z.shiftr (end_ r) PA_SECTION_SHIFT) as Hj2
    by (subst j; apply shiftr_le; [apply Hs | assumption]).
  assert ((end_ r - start r) / SECTION_SIZE
          = Z.shiftr (end_ r) PA_SECTION_SHIFT - Z.shiftr (start r) PA_SECTION_SHIFT)
    as Hdiv.
  { rewrite !Z.shiftr_div_pow2 by apply Hs. rewrite <- (SECTION_SIZE_pow2 Hs).
    symmetry.
    apply (Z.div_unique_pos _ _ _ (end_ r mod SECTION_SIZE - start r mod SECTION_SIZE)).
    - pose proof (Z.mod_pos_bound (end_ r) SECTION_SIZE Hpos).
      pose proof (Z.mod_pos_bound (start r) SECTION_SIZE Hpos). lia.
    - pose proof (Z.div_mod (end_ r) SECTION_SIZE) as He.
      pose proof (Z.div_mod (start r) SECTION_SIZE) as Hst. lia. }
  lia.
Qed.

(** ** The registry as a finite map *)

Lemma lookup_delete_all indices t j :
  delete_all indices t !! j = if decide (j ∈ indices) then None else t !! j.
Proof.
  revert t. induction indices as [| i rest IH]; intros t; simpl.
  - destruct (decide (j ∈ [])) as [Hin | _]; [| reflexivity].
    apply elem_of_nil in Hin. contradiction.
  - rewrite IH.
    destruct (decide (j ∈ rest)) as [Hin | Hnin];
      destruct (decide (j ∈ i :: rest)) as [Hin' | Hnin']; try reflexivity.
    + exfalso. apply Hnin'. apply elem_of_cons. auto.
    + apply elem_of_cons in Hin' as [-> | Hin']; [| contradiction].
      apply lookup_delete_eq.
    + apply lookup_delete_ne. intros ->. apply Hnin'. apply elem_of_cons. auto.
Qed.

Lemma lookup_insert_all indices pm t j :
  insert_all indices pm t !! j = if decide (j ∈ indices) then Some pm else t !! j.
Proof.
  revert t. induction indices as [| i rest IH]; intros t; simpl.
  - destruct (decide (j ∈ [])) as [Hin | _]; [| reflexivity].
    apply elem_of_nil in Hin. contradiction.
  - rewrite IH.
    destruct (decide (j ∈ rest)) as [Hin | Hnin];
      destruct (decide (j ∈ i :: rest)) as [Hin' | Hnin']; try reflexivity.
    + exfalso. apply Hnin'. apply elem_of_cons. auto.
    + apply elem_of_cons in Hin' as [-> | Hin']; [| contradiction].
      apply lookup_insert_eq.
    + apply lookup_insert_ne. intros ->. apply Hnin'. apply elem_of_cons. auto.
Qed.

Lemma delete_all_absent indices t :
  (forall j, j ∈ indices -> t !! j = None) -> delete_all indices t = t.
Proof.
  intros Habs. apply map_eq. intros j. rewrite lookup_delete_all.
  destruct (decide (j ∈ indices)) as [Hin | Hnin]; [| reflexivity].
  symmetry. apply Habs. assumption.
Qed.

Lemma delete_all_idemp indices t :
  delete_all indices (delete_all indices t) = delete_all indices t.
Proof.
  apply delete_all_absent. intros j Hin.
  rewrite lookup_delete_all. rewrite decide_True by assumption. reflexivity.
Qed.

Lemma delete_all_insert_all indices pm t :
  (forall j, j ∈ indices -> t !! j = None) ->
  delete_all indices (insert_all indices pm t) = t.
Proof.
  intros Habs. apply map_eq. intros j.
  rewrite lookup_delete_all, lookup_insert_all.
  destruct (decide (j ∈ indices)) as [Hin | Hnin]; [| reflexivity].
  symmetry. apply Habs. assumption.
Qed.

Lemma released_nil s : released [] s = s.
Proof. destruct s. unfold released. simpl. rewrite app_nil_r. reflexivity. Qed.

Lemma registered_nil pm s : registered [] pm s = s.
Proof. destruct s. unfold registered. simpl. rewrite app_nil_r. reflexivity. Qed.

(** ** The two loops *)

Lemma pgmap_radix_release_from_spec n :
  forall fuel r key s,
    section_shift_ok ->
    0 <= key ->
    end_ r + SECTION_SIZE < 2 ^ BITS_PER_LONG ->
    walk_len key (end_ r) = n ->
    (n < fuel)%nat ->
    pgmap_radix_release_from fuel r key s
    = Some (tt, released (walk_sections n (Z.shiftr key PA_SECTION_SHIFT)) s).
Proof.
  induction n as [| n IH]; intros fuel r key s Hs Hkey Hend Hlen Hfuel.
  - destruct fuel as [| fuel]; [lia |]. simpl.
    apply (walk_len_zero _ _ Hs) in Hlen.
    destruct (Z.leb_spec key (end_ r)); [lia |].
    rewrite released_nil. reflexivity.
  - destruct fuel as [| fuel]; [lia |]. simpl.
    destruct (Z.leb_spec key (end_ r)) as [Hle | Hgt].
    2: { rewrite walk_len_stop in Hlen by lia. discriminate. }
    rewrite (walk_len_step _ _ Hs Hle) in Hlen. injection Hlen as Hlen.
    pose proof (SECTION_SIZE_pos Hs) as Hpos.
    unfold bind at 1. unfold radix_tree_delete at 1.
    rewrite wrap_small by lia.
    rewrite (IH fuel r (key + SECTION_SIZE)) by (assumption || lia).
    rewrite (shiftr_next_section _ Hs).
    f_equal. f_equal. unfold released, set_radix, emit. simpl.
    rewrite <- app_assoc. reflexivity.
Qed.

Lemma pgmap_radix_release_spec fuel r s :
  section_shift_ok -> range_ok r ->
  (walk_len (start r) (end_ r) < fuel)%nat ->
  pgmap_radix_release fuel r s = Some (tt, released (sections_walked r) s).
Proof.
  intros Hs [H0 Hend] Hfuel. unfold pgmap_radix_release, sections_walked.
  apply pgmap_radix_release_from_spec; auto.
Qed.

Lemma pgmap_radix_insert_from_ok n :
  forall fuel d r pm key s,
    section_shift_ok ->
    0 <= key ->
    end_ r + SECTION_SIZE < 2 ^ BITS_PER_LONG ->
    walk_len key (end_ r) = n ->
    (n < fuel)%nat ->
    (forall j, j ∈ walk_sections n (Z.shiftr key PA_SECTION_SHIFT) ->
               pgmap_radix s !! j = None /\ radix_node_alloc_ok j = true) ->
    pgmap_radix_insert_from fuel d r pm key s
    = Some (0, registered (walk_sections n (Z.shiftr key PA_SECTION_SHIFT)) pm s).
Proof.
  induction n as [| n IH]; intros fuel d r pm key s Hs Hkey Hend Hlen Hfuel Hfree.
  - destruct fuel as [| fuel]; [lia |]. simpl.
    apply (walk_len_zero _ _ Hs) in Hlen.
    destruct (Z.leb_spec key (end_ r)); [lia |].
    rewrite registered_nil. reflexivity.
  - destruct fuel as [| fuel]; [lia |]. simpl.
    destruct (Z.leb_spec key (end_ r)) as [Hle | Hgt].
    2: { rewrite walk_len_stop in Hlen by lia. discriminate. }
    rewrite (walk_len_step _ _ Hs Hle) in Hlen. injection Hlen as Hlen.
    pose proof (SECTION_SIZE_pos Hs) as Hpos.
    destruct (Hfree (Z.shiftr key PA_SECTION_SHIFT)) as [Hnone Halloc].
    { apply elem_of_walk_sections. lia. }
    unfold bind at 1. unfold find_dev_pagemap, bind, radix_tree_lookup, ret.
    rewrite Hnone. unfold radix_tree_insert. simpl. rewrite Hnone, Halloc. simpl.
    rewrite wrap_small by lia.
    rewrite (IH fuel d r pm (key + SECTION_SIZE)); try assumption; try lia.
    + rewrite (shiftr_next_section _ Hs).
      f_equal. f_equal. unfold registered, set_radix, emit. simpl.
      rewrite <- app_assoc. reflexivity.
    + intros j Hj. rewrite (shiftr_next_section _ Hs) in Hj.
      pose proof Hj as Hj'. apply elem_of_walk_sections in Hj'.
      destruct (Hfree j) as [Hjn Hja].
      { apply elem_of_walk_sections. lia. }
      split; [| assumption]. simpl.
      rewrite lookup_insert_ne by lia. assumption.
Qed.

(** Neither loop touches the devres list. *)
Lemma pgmap_radix_release_from_devres fuel :
  forall r key s u s',
    pgmap_radix_release_from fuel r key s = Some (u, s') -> devres s' = devres s.
Proof.
  induction fuel as [| fuel IH]; intros r key s u s' Hrun; simpl in Hrun.
  - discriminate.
  - destruct (key <=? end_ r).
    + unfold bind at 1 in Hrun. unfold radix_tree_delete at 1 in Hrun.
      apply IH in Hrun. assumption.
    + injection Hrun as _ <-. reflexivity.
Qed.

Lemma pgmap_radix_insert_from_devres fuel :
  forall d r pm key s e s',
    pgmap_radix_insert_from fuel d r pm key s = Some (e, s') -> devres s' = devres s.
Proof.
  induction fuel as [| fuel IH]; intros d r pm key s e s' Hrun; simpl in Hrun.
  - discriminate.
  - destruct (key <=? end_ r).
    2: { injection Hrun as _ <-. reflexivity. }
    unfold bind at 1 in Hrun.
    unfold find_dev_pagemap, bind, radix_tree_lookup, ret in Hrun.
    destruct (pgmap_radix s !! Z.shiftr key PA_SECTION_SHIFT) as [owner |] eqn:Hdup.
    + unfold log in Hrun. injection Hrun as _ <-. reflexivity.
    + unfold radix_tree_insert in Hrun. simpl in Hrun. rewrite Hdup in Hrun.
      destruct (radix_node_alloc_ok (Z.shiftr key PA_SECTION_SHIFT)).
      * simpl in Hrun. apply IH in Hrun. assumption.
      * destruct (negb (- ENOMEM =? 0)).
        -- unfold log in Hrun. injection Hrun as _ <-. reflexivity.
        -- apply IH in Hrun. assumption.
Qed.

(** ** Request flags *)

Lemma land_lor_same a b : Z.land (Z.lor a b) a = a.
Proof.
  apply Z.bits_inj'. intros n _. rewrite Z.land_spec, Z.lor_spec.
  destruct (Z.testbit a n), (Z.testbit b n); reflexivity.
Qed.

(** Clearing the write-back bit of [WB | WT] leaves the write-through bit. *)
Lemma clear_wb_of_wb_wt :
  flags_ok ->
  Z.land (Z.lor MEMREMAP_WB MEMREMAP_WT) (wrap (Z.lnot MEMREMAP_WB)) = MEMREMAP_WT.
Proof.
  intros (_ & [Hwt0 Hwt1] & Hdisj).
  assert (0 <= BITS_PER_LONG) as Hbits.
  { destruct (Z_lt_le_dec BITS_PER_LONG 0) as [Hneg | Hpos]; [| assumption].
    rewrite Z.pow_neg_r in Hwt1 by assumption. lia. }
  assert (MEMREMAP_WT = Z.land MEMREMAP_WT (Z.ones BITS_PER_LONG)) as Hlow.
  { rewrite Z.land_ones by assumption. symmetry. apply Z.mod_small. lia. }
  unfold wrap. rewrite <- Z.land_ones by assumption.
  apply Z.bits_inj'. intros n Hn.
  assert (Z.testbit MEMREMAP_WB n && Z.testbit MEMREMAP_WT n = false) as Hbit.
  { rewrite <- Z.land_spec, Hdisj. apply Z.bits_0. }
  assert (Z.testbit MEMREMAP_WT n
          = Z.testbit MEMREMAP_WT n && Z.testbit (Z.ones BITS_PER_LONG) n) as Hbound.
  { rewrite <- Z.land_spec, <- Hlow. reflexivity. }
  rewrite !Z.land_spec, Z.lor_spec, Z.lnot_spec by assumption.
  destruct (Z.testbit MEMREMAP_WB n), (Z.testbit MEMREMAP_WT n),
    (Z.testbit (Z.ones BITS_PER_LONG) n); simpl in *; congruence.
Qed.

(** ** memremap *)

(** C10: with no flag requested and a range that is not mixed, [memremap]
    returns NULL and calls no mapping primitive, whether or not the range
    is System RAM with a linear address. *)
Theorem memremap_no_flags offset size s :
  region_intersects offset size "System RAM" <> REGION_MIXED ->
  memremap offset size 0 s = Some (NULL, s).
Proof.
  intros Hclass. unfold memremap.
  destruct (decide (region_intersects offset size "System RAM" = REGION_MIXED))
    as [Hmixed | _]; [contradiction |].
  simpl. unfold bind, ret. simpl.
  destruct (bool_decide (region_intersects offset size "System RAM" = REGION_INTERSECTS));
    reflexivity.
Qed.

Lemma emit_frame e s :
  pgmap_radix (emit e s) = pgmap_radix s
  /\ devres (emit e s) = devres s
  /\ trace (emit e s) = trace s ++ [e].
Proof. repeat split. Qed.

(** C5: on a range classified mixed, [memremap] warns and returns NULL and
    [devm_memremap_pages] warns and returns [ERR_PTR(-ENXIO)]; the state
    after either call is the state before it with the warning appended to
    the trace, so neither touches the registry, the devres list or any
    mapping or hotplug primitive. *)
Theorem mixed_range_rejected fuel d r offset size flags s :
  (region_intersects offset size "System RAM" = REGION_MIXED ->
   memremap offset size flags s
   = Some (NULL, emit (WARN_memremap_mixed offset size) s))
  /\ (region_intersects (start r) (resource_size r) "System RAM" = REGION_MIXED ->
      devm_memremap_pages fuel d r s
      = Some (ERR_PTR (- ENXIO), emit (WARN_pages_mixed r) s)).
Proof.
  split; intros Hclass.
  - unfold memremap. rewrite Hclass. rewrite decide_True by reflexivity. reflexivity.
  - unfold devm_memremap_pages. rewrite Hclass.
    rewrite decide_True by reflexivity. reflexivity.
Qed.

(** C6: on a range classified as System RAM, [devm_memremap_pages] returns
    the linear address of [res->start] and changes nothing: no registry
    entry, no hotplug call, no devres allocation or registration. *)
Theorem devm_memremap_pages_ram fuel d r s :
  region_intersects (start r) (resource_size r) "System RAM" = REGION_INTERSECTS ->
  devm_memremap_pages fuel d r s = Some (__va (start r), s).
Proof.
  intros Hclass. unfold devm_memremap_pages. rewrite Hclass.
  rewrite decide_False by discriminate. rewrite decide_True by reflexivity.
  reflexivity.
Qed.

(** C4, as amended: on a System RAM range whose page is not in high memory
    (so the linear address is usable), [memremap] with only MEMREMAP_WB
    returns [__va(offset)] and calls no mapping primitive. *)
Theorem memremap_wb_direct_map offset size s :
  region_intersects offset size "System RAM" = REGION_INTERSECTS ->
  MEMREMAP_WB <> 0 ->
  PageHighMem (pfn_to_page (Z.shiftr offset PAGE_SHIFT)) = false ->
  __va offset <> NULL ->
  memremap offset size MEMREMAP_WB s = Some (__va offset, s).
Proof.
  intros Hclass Hwb Hlow Hva. unfold memremap. rewrite Hclass.
  rewrite decide_False by discriminate. rewrite decide_True by reflexivity.
  rewrite Z.land_diag.
  assert ((MEMREMAP_WB =? 0) = false) as -> by (apply Z.eqb_neq; assumption).
  unfold try_ram_remap. rewrite Hlow. simpl.
  assert ((__va offset =? NULL) = false) as Hnn by (apply Z.eqb_neq; assumption).
  rewrite Hnn. unfold bind, ret. simpl. rewrite Hnn. simpl. reflexivity.
Qed.

(** C2, as amended: on a System RAM range, [memremap] with MEMREMAP_WB and
    MEMREMAP_WT tries write-back first.  It returns the linear address when
    [try_ram_remap] gives one, else what [ioremap_cache] returns when that
    is not NULL; only when both are NULL does it warn about aliasing RAM
    and return NULL.  [ioremap_wt] is not called on any of the paths. *)
Theorem memremap_wb_wt_ram offset size s :
  region_intersects offset size "System RAM" = REGION_INTERSECTS ->
  flags_ok ->
  memremap offset size (Z.lor MEMREMAP_WB MEMREMAP_WT) s
  = if negb (try_ram_remap offset size =? NULL) then
      Some (try_ram_remap offset size, s)
    else if negb (ioremap_cache offset size =? NULL) then
      Some (ioremap_cache offset size, emit (call_ioremap_cache offset size) s)
    else
      Some (NULL, emit (WARN_memremap_ram offset size)
                    (emit (call_ioremap_cache offset size) s)).
Proof.
  intros Hclass Hflags. pose proof (clear_wb_of_wb_wt Hflags) as Hclear.
  destruct Hflags as (Hwb & [Hwt _] & _).
  unfold memremap. rewrite Hclass.
  rewrite decide_False by discriminate. rewrite decide_True by reflexivity.
  rewrite bool_decide_eq_true_2 by reflexivity.
  rewrite land_lor_same, Hclear.
  assert ((MEMREMAP_WB =? 0) = false) as -> by (apply Z.eqb_neq; assumption).
  assert ((MEMREMAP_WT =? 0) = false) as Hwtb by (apply Z.eqb_neq; lia).
  simpl.
  destruct (try_ram_remap offset size =? NULL) eqn:Hram; simpl.
  - unfold bind, do_ioremap_cache, bind, log, ret. simpl.
    destruct (ioremap_cache offset size =? NULL) eqn:Hio; simpl.
    + rewrite Hwtb. reflexivity.
    + reflexivity.
  - unfold bind, ret. simpl. rewrite Hram. reflexivity.
Qed.

(** ** devm_memremap_pages *)

(** The run of [devm_memremap_pages] on a range disjoint from System RAM
    whose walk finds every section free: the outcome is decided by
    [arch_add_memory]. *)
Lemma devm_memremap_pages_registered fuel d r s :
  section_shift_ok -> range_ok r ->
  (walk_len (start r) (end_ r) < fuel)%nat ->
  region_intersects (start r) (resource_size r) "System RAM" = REGION_DISJOINT ->
  devres_alloc_ok d = true ->
  (forall j, j ∈ sections_walked r ->
             pgmap_radix s !! j = None /\ radix_node_alloc_ok j = true) ->
  let pm := claim_page_map d r in
  let error :=
    arch_add_memory (claim_nid d) (section_align_start r) (section_align_size r) true in
  let s_added :=
    emit (call_arch_add_memory (claim_nid d) (section_align_start r) (section_align_size r))
      (registered (sections_walked r) pm (emit (call_devres_alloc_node d) s)) in
  devm_memremap_pages fuel d r s
  = if negb (error =? 0) then
      Some (ERR_PTR error, emit call_devres_free (released (sections_walked r) s_added))
    else
      Some (__va (start r), add_devres (d, pm) (emit (call_devres_add d) s_added)).
Proof.
  intros Hs Hr Hfuel Hclass Halloc Hfree pm error s_added.
  unfold devm_memremap_pages. rewrite Hclass.
  rewrite !decide_False by discriminate.
  unfold bind at 1. unfold do_devres_alloc_node, bind, log, ret.
  rewrite Halloc. simpl ref. fold (claim_page_map d r).
  destruct Hr as [Hstart Hend].
  rewrite (pgmap_radix_insert_from_ok (walk_len (start r) (end_ r)) fuel d r
             (claim_page_map d r) (start r) (emit (call_devres_alloc_node d) s));
    try assumption; try reflexivity.
  simpl. unfold do_arch_add_memory, bind, log, ret.
  fold (claim_nid d). fold (sections_walked r). fold pm. fold error. fold s_added.
  destruct (negb (error =? 0)).
  - rewrite pgmap_radix_release_spec by (assumption || (split; assumption)).
    reflexivity.
  - reflexivity.
Qed.

(** C7: when every section of the walk is free and is inserted, and
    [arch_add_memory] then fails with [error], [devm_memremap_pages]
    deletes the walked sections again, frees its devres node and returns
    [ERR_PTR(error)]; the registry and the devres list are as before the
    call, and the hotplug call lies between the inserts and the deletes. *)
Theorem hotplug_failure_rolls_back fuel d r s :
  section_shift_ok -> range_ok r ->
  (walk_len (start r) (end_ r) < fuel)%nat ->
  region_intersects (start r) (resource_size r) "System RAM" = REGION_DISJOINT ->
  devres_alloc_ok d = true ->
  (forall j, j ∈ sections_walked r ->
             pgmap_radix s !! j = None /\ radix_node_alloc_ok j = true) ->
  arch_add_memory (claim_nid d) (section_align_start r) (section_align_size r) true <> 0 ->
  exists s',
    devm_memremap_pages fuel d r s
    = Some (ERR_PTR (arch_add_memory (claim_nid d) (section_align_start r)
                       (section_align_size r) true), s')
    /\ pgmap_radix s' = pgmap_radix s
    /\ devres s' = devres s
    /\ (forall j, j ∈ sections_walked r -> pgmap_radix s' !! j = None)
    /\ trace s'
       = trace s
         ++ [call_devres_alloc_node d]
         ++ map call_radix_tree_insert (sections_walked r)
         ++ [call_arch_add_memory (claim_nid d) (section_align_start r)
               (section_align_size r)]
         ++ map call_radix_tree_delete (sections_walked r)
         ++ [call_devres_free].
Proof.
  intros Hs Hr Hfuel Hclass Halloc Hfree Herr.
  rewrite (devm_memremap_pages_registered fuel d r s) by assumption.
  apply Z.eqb_neq in Herr. rewrite Herr. simpl negb. cbv iota.
  eexists. split; [reflexivity |].
  assert (forall j, j ∈ sections_walked r -> pgmap_radix s !! j = None) as Hnone
    by (intros j Hj; apply (Hfree j Hj)).
  simpl. repeat split.
  - apply delete_all_insert_all. assumption.
  - intros j Hj. rewrite lookup_delete_all. rewrite decide_True by assumption.
    reflexivity.
  - rewrite <- !app_assoc. reflexivity.
Qed.


(** A claim whose first section already has an owner: the collision is
    reported and [-EBUSY] returned, and the error path then releases the
    whole walk of the failed claim, the owner's section included. *)
Lemma devm_memremap_pages_collision_at_start fuel d r s owner :
  section_shift_ok -> range_ok r ->
  (walk_len (start r) (end_ r) < fuel)%nat ->
  start r <= end_ r ->
  region_intersects (start r) (resource_size r) "System RAM" = REGION_DISJOINT ->
  devres_alloc_ok d = true ->
  EBUSY <> 0 ->
  pgmap_radix s !! Z.shiftr (start r) PA_SECTION_SHIFT = Some owner ->
  devm_memremap_pages fuel d r s
  = Some (ERR_PTR (- EBUSY),
          emit call_devres_free
            (released (sections_walked r)
               (emit (dev_err_collides d r (dev (pgmap owner)))
                  (emit (call_devres_alloc_node d) s))))
  /\ delete_all (sections_walked r) (pgmap_radix s)
       !! Z.shiftr (start r) PA_SECTION_SHIFT = None.
Proof.
  intros Hs Hr Hfuel Hle Hclass Halloc Hbusy Howner. split.
  - unfold devm_memremap_pages. rewrite Hclass.
    rewrite !decide_False by discriminate.
    unfold bind at 1. unfold do_devres_alloc_node, bind, log, ret.
    rewrite Halloc. simpl ref. fold (claim_page_map d r).
    destruct fuel as [| fuel']; [lia |].
    cbn [pgmap_radix_insert_from].
    destruct (Z.leb_spec (start r) (end_ r)); [| lia].
    unfold find_dev_pagemap, bind, radix_tree_lookup, ret, log.
    cbn [pgmap_radix emit]. rewrite Howner.
    assert ((- EBUSY =? 0) = false) as -> by (apply Z.eqb_neq; lia).
    cbn [negb].
    rewrite pgmap_radix_release_spec by assumption.
    reflexivity.
  - rewrite lookup_delete_all. rewrite decide_True; [reflexivity |].
    unfold sections_walked. apply elem_of_walk_sections.
    rewrite (walk_len_step _ _ Hs Hle). lia.
Qed.

(** ** Release *)

Lemma cons_neq_self {A : Type} (x : A) (l : list A) : x :: l <> l.
Proof. intros Heq. apply (f_equal length) in Heq. simpl in Heq. lia. Qed.

(** The only path of [devm_memremap_pages] that extends the devres list is
    the successful registration, and the hook it adds carries the claimed
    range and the claiming device. *)
Lemma devm_memremap_pages_hook fuel d r s a s1 hook :
  devm_memremap_pages fuel d r s = Some (a, s1) ->
  devres s1 = hook :: devres s ->
  hook = (d, claim_page_map d r).
Proof.
  unfold devm_memremap_pages. intros Hrun Hhook.
  destruct (decide (region_intersects (start r) (resource_size r) "System RAM"
                    = REGION_MIXED)).
  { injection Hrun as _ <-. symmetry in Hhook. destruct (cons_neq_self _ _ Hhook). }
  destruct (decide (region_intersects (start r) (resource_size r) "System RAM"
                    = REGION_INTERSECTS)).
  { injection Hrun as _ <-. symmetry in Hhook. destruct (cons_neq_self _ _ Hhook). }
  unfold bind at 1 in Hrun. unfold do_devres_alloc_node, bind, log, ret in Hrun.
  destruct (devres_alloc_ok d).
  2: { injection Hrun as _ <-. symmetry in Hhook. destruct (cons_neq_self _ _ Hhook). }
  simpl ref in Hrun. fold (claim_page_map d r) in Hrun.
  destruct (pgmap_radix_insert_from fuel d r (claim_page_map d r) (start r)
              (emit (call_devres_alloc_node d) s)) as [[error s_ins] |] eqn:Hins;
    [| discriminate].
  apply pgmap_radix_insert_from_devres in Hins. simpl in Hins.
  assert (forall e s0, devres s0 = devres s ->
            match pgmap_radix_release fuel r s0 with
            | Some (_, s') =>
                match devres_free (claim_page_map d r) s' with
                | Some (_, s'') => Some (ERR_PTR e, s'')
                | None => None
                end
            | None => None
            end = Some (a, s1) -> False) as Hrollback.
  { intros e s0 Hs0 Hroll.
    destruct (pgmap_radix_release fuel r s0) as [[u s'] |] eqn:Hrel; [| discriminate].
    apply pgmap_radix_release_from_devres in Hrel.
    unfold devres_free, log in Hroll. injection Hroll as _ <-.
    simpl in Hhook. rewrite Hrel, Hs0 in Hhook.
    symmetry in Hhook. exact (cons_neq_self _ _ Hhook). }
  destruct (negb (error =? 0)).
  { destruct (Hrollback _ _ Hins Hrun). }
  unfold do_arch_add_memory, bind, log, ret in Hrun.
  destruct (negb (arch_add_memory _ _ _ true =? 0)).
  { destruct (Hrollback _ (emit _ s_ins) Hins Hrun). }
  unfold devres_add in Hrun. injection Hrun as _ <-.
  simpl in Hhook. injection Hhook as <- _. reflexivity.
Qed.

(** C8: the hook a successful [devm_memremap_pages] registers, run in any
    later state, first deletes every section the claim walked and only then
    calls [arch_remove_memory] on the aligned range: the hotplug call is the
    last event, made in a state where the walked sections are absent. *)
Theorem release_hook_order fuel d r s a s1 hook fuel' s2 :
  section_shift_ok -> range_ok r ->
  (walk_len (start r) (end_ r) < fuel')%nat ->
  devm_memremap_pages fuel d r s = Some (a, s1) ->
  devres s1 = hook :: devres s ->
  exists s_mid,
    pgmap_radix_release fuel' (res (snd hook)) s2 = Some (tt, s_mid)
    /\ (forall j, j ∈ sections_walked r -> pgmap_radix s_mid !! j = None)
    /\ trace s_mid = trace s2 ++ map call_radix_tree_delete (sections_walked r)
    /\ devm_memremap_pages_release fuel' (fst hook) (snd hook) s2
       = Some (tt, emit (call_arch_remove_memory (section_align_start r)
                           (section_align_size r)) s_mid).
Proof.
  intros Hs Hr Hfuel Hrun Hhook.
  rewrite (devm_memremap_pages_hook _ _ _ _ _ _ _ Hrun Hhook). simpl.
  exists (released (sections_walked r) s2).
  pose proof (pgmap_radix_release_spec fuel' r s2 Hs Hr Hfuel) as Hrel.
  repeat split.
  - assumption.
  - intros j Hj. simpl. rewrite lookup_delete_all.
    rewrite decide_True by assumption. reflexivity.
  - unfold devm_memremap_pages_release, bind. simpl res. rewrite Hrel.
    reflexivity.
Qed.

(** C9, as amended: [pgmap_radix_release] returns on every range whose
    walk does not wrap; run a second time it leaves the registry as the first run left
    it, and on a range none of whose sections is present it leaves the
    registry as it found it. *)
Theorem pgmap_radix_release_idempotent fuel r s :
  section_shift_ok -> range_ok r ->
  (walk_len (start r) (end_ r) < fuel)%nat ->
  exists s1 s2,
    pgmap_radix_release fuel r s = Some (tt, s1)
    /\ pgmap_radix_release fuel r s1 = Some (tt, s2)
    /\ pgmap_radix s2 = pgmap_radix s1
    /\ ((forall j, section_covered r j -> pgmap_radix s !! j = None) ->
        pgmap_radix s1 = pgmap_radix s).
Proof.
  intros Hs Hr Hfuel.
  exists (released (sections_walked r) s).
  exists (released (sections_walked r) (released (sections_walked r) s)).
  rewrite !pgmap_radix_release_spec by assumption.
  repeat split.
  - simpl. apply delete_all_idemp.
  - intros Habsent. simpl. apply delete_all_absent.
    intros j Hj. apply Habsent. apply sections_walked_covered; assumption.
Qed.

End Properties.

(** * Scenarios on the concrete machines *)

(** C1: [dev_A] claims section 32; [dev_B] then claims a range that shares
    section 32.  The second call reports the collision with [dev_A] and
    returns [ERR_PTR(-EBUSY)], but its rollback runs
    [pgmap_radix_release] over the whole of [dev_B]'s range and deletes
    [dev_A]'s entry for section 32: the registry is not the one before the
    call, and [find_dev_pagemap] no longer finds [dev_A]. *)
Theorem collision_rollback_drops_first_owner :
  devm_memremap_pages (P := zone_device 0) 8 dev_A range_A empty_state
  = Some (@__va (zone_device 0) (start range_A), claimed_A)
  /\ find_dev_pagemap (P := zone_device 0) (start range_A) claimed_A
     = Some (Some {| dev := dev_A |}, claimed_A)
  /\ section_covered (P := zone_device 0) range_A 32
  /\ section_covered (P := zone_device 0) range_B 32
  /\ devm_memremap_pages (P := zone_device 0) 8 dev_B range_B claimed_A
     = Some (@ERR_PTR (zone_device 0) (- @EBUSY (zone_device 0)), collided_B)
  /\ find_dev_pagemap (P := zone_device 0) (start range_A) collided_B
     = Some (None, collided_B)
  /\ pgmap_radix collided_B <> pgmap_radix claimed_A.
Proof.
  split; [vm_compute; reflexivity |].
  split; [vm_compute; reflexivity |].
  split; [exists 0x100000000; vm_compute; intuition discriminate |].
  split; [exists 0x104000000; vm_compute; intuition discriminate |].
  split; [vm_compute; reflexivity |].
  split; [vm_compute; reflexivity |].
  intros Heq. apply (f_equal (fun t => t !! 32)) in Heq.
  vm_compute in Heq. discriminate.
Qed.

(** C3: [dev_B] claims [range_B], which starts in the middle of section 32
    and ends in the middle of section 33, on the empty registry.  The claim
    succeeds; the walk from [res->start] in steps of [SECTION_SIZE] reaches
    section 32 only, so an address of the range in section 33 has no owner. *)
Theorem unaligned_claim_misses_last_section :
  devm_memremap_pages (P := zone_device 0) 8 dev_B range_B empty_state
  = Some (@__va (zone_device 0) (start range_B), claimed_B)
  /\ start range_B <= 0x108000000 <= end_ range_B
  /\ section_covered (P := zone_device 0) range_B 33
  /\ find_dev_pagemap (P := zone_device 0) 0x108000000 claimed_B
     = Some (None, claimed_B)
  /\ find_dev_pagemap (P := zone_device 0) (start range_B) claimed_B
     = Some (Some {| dev := dev_B |}, claimed_B).
Proof.
  split; [vm_compute; reflexivity |].
  split; [vm_compute; intuition discriminate |].
  split; [exists 0x108000000; vm_compute; intuition discriminate |].
  split; vm_compute; reflexivity.
Qed.

(** A consequence of the walk of C3: section 33, which [range_B] covers
    but its walk did not register, can be claimed again by [dev_A] while
    [dev_B]'s claim is live; no collision is reported. *)
Example overlap_in_unwalked_section_not_detected :
  section_covered (P := zone_device 0) range_B 33
  /\ section_covered (P := zone_device 0) range_D 33
  /\ exists s',
       devm_memremap_pages (P := zone_device 0) 8 dev_A range_D claimed_B
       = Some (@__va (zone_device 0) (start range_D), s')
       /\ devres s' = (dev_A, claim_page_map dev_A range_D) :: devres claimed_B.
Proof.
  split; [exists 0x108000000; vm_compute; intuition discriminate |].
  split; [exists 0x108000000; vm_compute; intuition discriminate |].
  destruct (devm_memremap_pages (P := zone_device 0) 8 dev_A range_D claimed_B)
    as [[a s'] |] eqn:Hrun; vm_compute in Hrun; [| discriminate].
  injection Hrun as <- <-. eexists. split; reflexivity.
Qed.

(** C2, as stated, fails: on a System RAM range in low memory, [memremap]
    with MEMREMAP_WB | MEMREMAP_WT returns the linear address, with no
    warning and no failure. *)
Lemma memremap_wb_wt_lowmem_succeeds :
  region_intersects (Platform := zone_device 0) 0x100000 0x1000 "System RAM"
  = REGION_INTERSECTS
  /\ memremap (P := zone_device 0) 0x100000 0x1000
       (Z.lor (@MEMREMAP_WB (zone_device 0)) (@MEMREMAP_WT (zone_device 0)))
       empty_state
     = Some (@__va (zone_device 0) 0x100000, empty_state)
  /\ @__va (zone_device 0) 0x100000 <> NULL.
Proof.
  split; [vm_compute; reflexivity |].
  split; [vm_compute; reflexivity |].
  vm_compute. discriminate.
Qed.

(** C4, as stated, fails: on a System RAM range in high memory,
    [memremap] with only MEMREMAP_WB calls [ioremap_cache] and returns its
    mapping, not the linear address. *)
Lemma memremap_wb_highmem_calls_ioremap_cache :
  region_intersects (Platform := highmem_machine) 0x3c000000 0x1000 "System RAM"
  = REGION_INTERSECTS
  /\ memremap (P := highmem_machine) 0x3c000000 0x1000
       (@MEMREMAP_WB highmem_machine) empty_state
     = Some (@ioremap_cache highmem_machine 0x3c000000 0x1000,
             emit (call_ioremap_cache 0x3c000000 0x1000) empty_state)
  /\ @ioremap_cache highmem_machine 0x3c000000 0x1000
     <> @__va highmem_machine 0x3c000000.
Proof.
  split; [vm_compute; reflexivity |].
  split; [vm_compute; reflexivity |].
  vm_compute. discriminate.
Qed.

(** * The theorems at concrete inputs *)

Lemma memremap_no_flags_witness :
  region_intersects (Platform := zone_device 0) 0x100000 0x1000 "System RAM"
  <> REGION_MIXED
  /\ memremap (P := zone_device 0) 0x100000 0x1000 0 empty_state
     = Some (NULL, empty_state).
Proof.
  assert (region_intersects (Platform := zone_device 0) 0x100000 0x1000 "System RAM"
          <> REGION_MIXED) as Hclass by (vm_compute; discriminate).
  split; [exact Hclass |].
  exact (memremap_no_flags (P := zone_device 0) 0x100000 0x1000 empty_state Hclass).
Defined.

Lemma mixed_range_rejected_witness :
  memremap (P := zone_device 0) 0xfc000000 0x8000000 3 empty_state
  = Some (NULL, emit (WARN_memremap_mixed 0xfc000000 0x8000000) empty_state)
  /\ devm_memremap_pages (P := zone_device 0) 8 dev_A range_M empty_state
     = Some (@ERR_PTR (zone_device 0) (- @ENXIO (zone_device 0)),
             emit (WARN_pages_mixed range_M) empty_state).
Proof.
  destruct (mixed_range_rejected (P := zone_device 0) 8 dev_A range_M
              0xfc000000 0x8000000 3 empty_state) as [Hremap Hclaim].
  split.
  - apply Hremap. vm_compute. reflexivity.
  - apply Hclaim. vm_compute. reflexivity.
Defined.

Lemma devm_memremap_pages_ram_witness :
  devm_memremap_pages (P := zone_device 0) 8 dev_A range_R empty_state
  = Some (@__va (zone_device 0) (start range_R), empty_state).
Proof.
  apply (devm_memremap_pages_ram (P := zone_device 0)).
  vm_compute. reflexivity.
Defined.

Lemma memremap_wb_direct_map_witness :
  memremap (P := zone_device 0) 0x100000 0x1000 (@MEMREMAP_WB (zone_device 0))
    empty_state
  = Some (@__va (zone_device 0) 0x100000, empty_state).
Proof.
  apply (memremap_wb_direct_map (P := zone_device 0)).
  - vm_compute. reflexivity.
  - vm_compute. discriminate.
  - vm_compute. reflexivity.
  - vm_compute. discriminate.
Defined.

Lemma section_shift_ok_zone_device hotplug_result :
  section_shift_ok (P := zone_device hotplug_result).
Proof. unfold section_shift_ok. simpl. lia. Defined.

Lemma memremap_wb_wt_ram_witness :
  memremap (P := highmem_machine_no_ioremap) 0x3c000000 0x1000
    (Z.lor (@MEMREMAP_WB highmem_machine_no_ioremap)
           (@MEMREMAP_WT highmem_machine_no_ioremap))
    empty_state
  = Some (NULL, emit (WARN_memremap_ram 0x3c000000 0x1000)
                  (emit (call_ioremap_cache 0x3c000000 0x1000) empty_state)).
Proof.
  rewrite (memremap_wb_wt_ram (P := highmem_machine_no_ioremap)
             0x3c000000 0x1000 empty_state).
  - vm_compute. reflexivity.
  - vm_compute. reflexivity.
  - unfold flags_ok. simpl. repeat split; try reflexivity. discriminate.
Defined.

Lemma hotplug_failure_rolls_back_witness :
  exists s',
    devm_memremap_pages (P := zone_device (-12)) 8 dev_A range_C claimed_A
    = Some (@ERR_PTR (zone_device (-12)) (-12), s')
    /\ pgmap_radix s' = pgmap_radix claimed_A
    /\ devres s' = devres claimed_A.
Proof.
  destruct (hotplug_failure_rolls_back (P := zone_device (-12)) 8 dev_A range_C claimed_A)
    as (s' & Hrun & Hradix & Hdevres & _).
  - apply section_shift_ok_zone_device.
  - unfold range_ok. vm_compute. split; [discriminate | reflexivity].
  - vm_compute. lia.
  - vm_compute. reflexivity.
  - reflexivity.
  - intros j Hj. split; [| reflexivity].
    assert (sections_walked (P := zone_device (-12)) range_C = [34; 35]) as Hwalk
      by (vm_compute; reflexivity).
    rewrite Hwalk in Hj.
    apply elem_of_cons in Hj as [-> | Hj]; [vm_compute; reflexivity |].
    apply elem_of_cons in Hj as [-> | Hj]; [vm_compute; reflexivity |].
    apply elem_of_nil in Hj. contradiction.
  - vm_compute. discriminate.
  - exists s'. auto.
Defined.

Lemma release_hook_order_witness :
  exists s_mid,
    pgmap_radix_release (P := zone_device 0) 8 range_A claimed_A = Some (tt, s_mid)
    /\ pgmap_radix s_mid !! 32 = None
    /\ devm_memremap_pages_release (P := zone_device 0) 8 dev_A
         {| res := range_A; ref := NULL; pgmap := {| dev := dev_A |} |} claimed_A
       = Some (tt, emit (call_arch_remove_memory 0x100000000 0x8000000) s_mid).
Proof.
  destruct (release_hook_order (P := zone_device 0) 8 dev_A range_A empty_state
              (@__va (zone_device 0) (start range_A)) claimed_A
              (dev_A, {| res := range_A; ref := NULL; pgmap := {| dev := dev_A |} |})
              8%nat claimed_A)
    as (s_mid & Hrel & Habsent & _ & Hhook).
  - apply section_shift_ok_zone_device.
  - unfold range_ok. vm_compute. split; [discriminate | reflexivity].
  - vm_compute. lia.
  - vm_compute. reflexivity.
  - reflexivity.
  - exists s_mid. split; [exact Hrel |]. split; [| exact Hhook].
    apply Habsent. vm_compute. left.
Defined.

Lemma pgmap_radix_release_idempotent_witness :
  exists s1 s2,
    pgmap_radix_release (P := zone_device 0) 8 range_A claimed_A = Some (tt, s1)
    /\ pgmap_radix_release (P := zone_device 0) 8 range_A s1 = Some (tt, s2)
    /\ pgmap_radix s2 = pgmap_radix s1.
Proof.
  destruct (pgmap_radix_release_idempotent (P := zone_device 0) 8 range_A claimed_A)
    as (s1 & s2 & H1 & H2 & Hsame & _).
  - apply section_shift_ok_zone_device.
  - unfold range_ok. vm_compute. split; [discriminate | reflexivity].
  - vm_compute. lia.
  - exists s1, s2. auto.
Defined.

(** * Further properties of memremap *)

Section MemremapMore.
Context `{P : Platform}.

Implicit Types (s : state).

Lemma clear_wb_of_wb :
  flags_ok -> Z.land MEMREMAP_WB (wrap (Z.lnot MEMREMAP_WB)) = 0.
Proof.
  intros (_ & [Hwt0 Hwt1] & _).
  assert (0 <= BITS_PER_LONG) as Hbits.
  { destruct (Z_lt_le_dec BITS_PER_LONG 0) as [Hneg | Hpos]; [| assumption].
    rewrite Z.pow_neg_r in Hwt1 by assumption. lia. }
  unfold wrap. rewrite <- Z.land_ones by assumption.
  apply Z.bits_inj'. intros n Hn.
  rewrite !Z.land_spec, Z.lnot_spec, Z.bits_0 by assumption.
  destruct (Z.testbit MEMREMAP_WB n); reflexivity.
Qed.

(** X1: on a System RAM range, a request without the write-back bit but
    with some flag set is refused: [memremap] warns that RAM would be
    aliased and returns NULL, and no mapping primitive is called. *)
Theorem memremap_ram_without_wb offset size flags s :
  region_intersects offset size "System RAM" = REGION_INTERSECTS ->
  Z.land flags MEMREMAP_WB = 0 ->
  flags <> 0 ->
  memremap offset size flags s
  = Some (NULL, emit (WARN_memremap_ram offset size) s).
Proof.
  intros Hclass Hnowb Hflags. unfold memremap. rewrite Hclass.
  rewrite decide_False by discriminate.
  rewrite bool_decide_eq_true_2 by reflexivity.
  rewrite Hnowb. simpl. unfold bind, ret. simpl.
  assert ((flags =? 0) = false) as -> by (apply Z.eqb_neq; assumption).
  reflexivity.
Qed.

(** X2: on a System RAM range with a usable linear address, any request
    that includes the write-back bit returns that address and calls
    nothing; whatever other flags were set are ignored. *)
Theorem memremap_ram_wb_any_flags offset size flags s :
  region_intersects offset size "System RAM" = REGION_INTERSECTS ->
  Z.land flags MEMREMAP_WB <> 0 ->
  try_ram_remap offset size <> NULL ->
  memremap offset size flags s = Some (try_ram_remap offset size, s).
Proof.
  intros Hclass Hwb Hram. unfold memremap. rewrite Hclass.
  rewrite decide_False by discriminate. rewrite decide_True by reflexivity.
  apply Z.eqb_neq in Hwb. rewrite Hwb.
  apply Z.eqb_neq in Hram. simpl. rewrite Hram.
  unfold bind, ret. simpl. rewrite Hram. reflexivity.
Qed.

(** X3: on a System RAM range [ioremap_wt] is never called, whatever the
    flags: the events [memremap] adds are nothing, the aliasing warning,
    one [ioremap_cache] call, or one [ioremap_cache] call followed by the
    aliasing warning; the registry and the devres list are kept. *)
Theorem memremap_ram_never_wt offset size flags s :
  region_intersects offset size "System RAM" = REGION_INTERSECTS ->
  exists a events,
    memremap offset size flags s
    = Some (a, {| pgmap_radix := pgmap_radix s; devres := devres s;
                  trace := trace s ++ events |})
    /\ (events = []
        \/ events = [WARN_memremap_ram offset size]
        \/ events = [call_ioremap_cache offset size]
        \/ events = [call_ioremap_cache offset size; WARN_memremap_ram offset size])
    /\ forall o z, call_ioremap_wt o z ∉ events.
Proof.
  intros Hclass. unfold memremap. rewrite Hclass.
  rewrite decide_False by discriminate. rewrite decide_True by reflexivity.
  rewrite bool_decide_eq_true_2 by reflexivity.
  assert (forall a : Z, Some (a, s)
                    = Some (a, {| pgmap_radix := pgmap_radix s; devres := devres s;
                                  trace := trace s ++ [] |})) as Hnil.
  { intros a. destruct s. simpl. rewrite app_nil_r. reflexivity. }
  destruct (Z.land flags MEMREMAP_WB =? 0) eqn:Hwb; simpl.
  - unfold bind, ret. simpl.
    destruct (flags =? 0) eqn:Hflags; simpl.
    + apply Z.eqb_eq in Hflags. subst flags. simpl.
      exists NULL, []. split; [apply Hnil |]. split; [auto |].
      intros o z Hin. inversion Hin.
    + exists NULL, [WARN_memremap_ram offset size]. split; [reflexivity |].
      split; [auto |].
      intros o z Hin. apply list_elem_of_singleton in Hin. discriminate.
  - destruct (try_ram_remap offset size =? NULL) eqn:Hram.
    + unfold bind, do_ioremap_cache, bind, log, ret. simpl.
      destruct (ioremap_cache offset size =? NULL) eqn:Hio; simpl.
      * destruct (Z.land flags (wrap (Z.lnot MEMREMAP_WB)) =? 0) eqn:Hrest; simpl.
        -- apply Z.eqb_eq in Hrest. rewrite Hrest. simpl.
           exists (ioremap_cache offset size), [call_ioremap_cache offset size].
           split; [reflexivity |]. split; [auto |].
           intros o z Hin. apply list_elem_of_singleton in Hin. discriminate.
        -- exists NULL, [call_ioremap_cache offset size; WARN_memremap_ram offset size].
           split; [| split; [auto 6 |]].
           ++ unfold emit. simpl. rewrite <- app_assoc. reflexivity.
           ++ intros o z Hin. apply elem_of_cons in Hin as [Hin | Hin]; [discriminate |].
              apply list_elem_of_singleton in Hin. discriminate.
      * exists (ioremap_cache offset size), [call_ioremap_cache offset size].
        split; [reflexivity |]. split; [auto |].
        intros o z Hin. apply list_elem_of_singleton in Hin. discriminate.
    + unfold bind, ret. simpl. rewrite Hram. simpl.
      exists (try_ram_remap offset size), []. split; [apply Hnil |].
      split; [auto |].
      intros o z Hin. inversion Hin.
Qed.

(** X4: on a range disjoint from System RAM, a request for one mapping
    type makes exactly one call, to the matching primitive, and returns
    what it returns (NULL included): [ioremap_cache] for MEMREMAP_WB,
    [ioremap_wt] for MEMREMAP_WT.  The linear map is never used. *)
Theorem memremap_disjoint_single_flag offset size s :
  region_intersects offset size "System RAM" = REGION_DISJOINT ->
  flags_ok ->
  memremap offset size MEMREMAP_WB s
  = Some (ioremap_cache offset size, emit (call_ioremap_cache offset size) s)
  /\ memremap offset size MEMREMAP_WT s
     = Some (ioremap_wt offset size, emit (call_ioremap_wt offset size) s).
Proof.
  intros Hclass Hflags. pose proof (clear_wb_of_wb Hflags) as Hclear.
  destruct Hflags as (Hwb & [Hwt _] & Hdisj).
  unfold memremap. rewrite Hclass.
  rewrite !decide_False by discriminate.
  rewrite bool_decide_eq_false_2 by discriminate.
  split.
  - rewrite Z.land_diag.
    assert ((MEMREMAP_WB =? 0) = false) as -> by (apply Z.eqb_neq; assumption).
    simpl. unfold bind, do_ioremap_cache, bind, log, ret. simpl.
    rewrite Hclear. simpl.
    destruct (ioremap_cache offset size =? NULL); reflexivity.
  - rewrite (Z.land_comm MEMREMAP_WT MEMREMAP_WB), Hdisj. simpl.
    unfold bind, ret. simpl. rewrite Z.land_diag.
    assert ((MEMREMAP_WT =? 0) = false) as -> by (apply Z.eqb_neq; lia).
    reflexivity.
Qed.

(** X5: on a range disjoint from System RAM, a request for both mapping
    types tries [ioremap_cache] first and falls back to [ioremap_wt] only
    when that returned NULL. *)
Theorem memremap_disjoint_wb_wt offset size s :
  region_intersects offset size "System RAM" = REGION_DISJOINT ->
  flags_ok ->
  memremap offset size (Z.lor MEMREMAP_WB MEMREMAP_WT) s
  = if negb (ioremap_cache offset size =? NULL) then
      Some (ioremap_cache offset size, emit (call_ioremap_cache offset size) s)
    else
      Some (ioremap_wt offset size,
            emit (call_ioremap_wt offset size)
              (emit (call_ioremap_cache offset size) s)).
Proof.
  intros Hclass Hflags. pose proof (clear_wb_of_wb_wt Hflags) as Hclear.
  destruct Hflags as (Hwb & [Hwt _] & _).
  unfold memremap. rewrite Hclass.
  rewrite !decide_False by discriminate.
  rewrite bool_decide_eq_false_2 by discriminate.
  rewrite land_lor_same, Hclear.
  assert ((MEMREMAP_WB =? 0) = false) as -> by (apply Z.eqb_neq; assumption).
  simpl. unfold bind, do_ioremap_cache, do_ioremap_wt, bind, log, ret. simpl.
  rewrite Z.land_diag.
  assert ((MEMREMAP_WT =? 0) = false) as -> by (apply Z.eqb_neq; lia).
  destruct (ioremap_cache offset size =? NULL); reflexivity.
Qed.

End MemremapMore.

(** * Further properties of the section registry *)

Section RegistryMore.
Context `{P : Platform}.

Implicit Types (s : state) (r : resource).

(** ** The shape of a claim on device memory *)

Lemma err_radix_spec fuel r pm error s :
  section_shift_ok -> range_ok r ->
  (walk_len (start r) (end_ r) < fuel)%nat ->
  err_radix fuel r pm error s
  = Some (ERR_PTR error, emit call_devres_free (released (sections_walked r) s)).
Proof.
  intros Hs Hr Hfuel. unfold err_radix, bind.
  rewrite pgmap_radix_release_spec by assumption. reflexivity.
Qed.

Lemma devm_memremap_pages_disjoint fuel d r s :
  region_intersects (start r) (resource_size r) "System RAM" = REGION_DISJOINT ->
  devres_alloc_ok d = true ->
  devm_memremap_pages fuel d r s
  = match pgmap_radix_insert_from fuel d r (claim_page_map d r) (start r)
            (emit (call_devres_alloc_node d) s) with
    | None => None
    | Some (error, s1) =>
        if negb (error =? 0) then err_radix fuel r (claim_page_map d r) error s1
        else
          let s2 :=
            emit (call_arch_add_memory (claim_nid d) (section_align_start r)
                    (section_align_size r)) s1 in
          let error :=
            arch_add_memory (claim_nid d) (section_align_start r)
              (section_align_size r) true in
          if negb (error =? 0) then err_radix fuel r (claim_page_map d r) error s2
          else Some (__va (start r), add_devres (d, claim_page_map d r)
                                       (emit (call_devres_add d) s2))
    end.
Proof.
  intros Hclass Halloc. unfold devm_memremap_pages. rewrite Hclass.
  rewrite !decide_False by discriminate.
  unfold bind at 1. unfold do_devres_alloc_node, bind, log, ret.
  rewrite Halloc. simpl ref. fold (claim_page_map d r).
  destruct (pgmap_radix_insert_from fuel d r (claim_page_map d r) (start r)
              (emit (call_devres_alloc_node d) s)) as [[error s1] |]; [| reflexivity].
  destruct (negb (error =? 0)); [reflexivity |].
  unfold do_arch_add_memory, bind, log, ret. fold (claim_nid d). cbv zeta.
  destruct (negb (arch_add_memory (claim_nid d) (section_align_start r)
                    (section_align_size r) true =? 0)); reflexivity.
Qed.

(** ** What the loops leave alone *)

Lemma pgmap_radix_insert_from_frame fuel :
  forall d r pm key s e s',
    section_shift_ok -> 0 <= key ->
    end_ r + SECTION_SIZE < 2 ^ BITS_PER_LONG ->
    pgmap_radix_insert_from fuel d r pm key s = Some (e, s') ->
    forall j,
      j ∉ walk_sections (walk_len key (end_ r)) (Z.shiftr key PA_SECTION_SHIFT) ->
      pgmap_radix s' !! j = pgmap_radix s !! j.
Proof.
  induction fuel as [| fuel IH]; intros d r pm key s e s' Hs Hkey Hend Hrun j Hj;
    simpl in Hrun; [discriminate |].
  pose proof (SECTION_SIZE_pos Hs) as Hpos.
  destruct (Z.leb_spec key (end_ r)) as [Hle | Hgt].
  2: { injection Hrun as _ <-. reflexivity. }
  rewrite (walk_len_step _ _ Hs Hle) in Hj. simpl in Hj.
  apply not_elem_of_cons in Hj as [Hne Hj].
  assert (0 <= key + SECTION_SIZE) as Hkey' by lia.
  unfold bind at 1 in Hrun.
  unfold find_dev_pagemap, bind, radix_tree_lookup, ret in Hrun.
  destruct (pgmap_radix s !! Z.shiftr key PA_SECTION_SHIFT) as [owner |] eqn:Hdup.
  { unfold log in Hrun. injection Hrun as _ <-. reflexivity. }
  unfold radix_tree_insert in Hrun. simpl in Hrun. rewrite Hdup in Hrun.
  destruct (radix_node_alloc_ok (Z.shiftr key PA_SECTION_SHIFT)).
  - simpl in Hrun. rewrite wrap_small in Hrun by lia.
    rewrite <- (shiftr_next_section _ Hs) in Hj.
    rewrite (IH d r pm (key + SECTION_SIZE) _ _ _ Hs Hkey' Hend Hrun j Hj). simpl.
    apply lookup_insert_ne. congruence.
  - destruct (negb (- ENOMEM =? 0)).
    + unfold log in Hrun. injection Hrun as _ <-. reflexivity.
    + rewrite wrap_small in Hrun by lia.
      rewrite <- (shiftr_next_section _ Hs) in Hj.
      rewrite (IH d r pm (key + SECTION_SIZE) _ _ _ Hs Hkey' Hend Hrun j Hj). reflexivity.
Qed.

Lemma pgmap_radix_release_from_frame fuel :
  forall r key s u s',
    section_shift_ok -> 0 <= key ->
    end_ r + SECTION_SIZE < 2 ^ BITS_PER_LONG ->
    pgmap_radix_release_from fuel r key s = Some (u, s') ->
    forall j,
      j ∉ walk_sections (walk_len key (end_ r)) (Z.shiftr key PA_SECTION_SHIFT) ->
      pgmap_radix s' !! j = pgmap_radix s !! j.
Proof.
  induction fuel as [| fuel IH]; intros r key s u s' Hs Hkey Hend Hrun j Hj;
    simpl in Hrun; [discriminate |].
  pose proof (SECTION_SIZE_pos Hs) as Hpos.
  destruct (Z.leb_spec key (end_ r)) as [Hle | Hgt].
  2: { injection Hrun as _ <-. reflexivity. }
  rewrite (walk_len_step _ _ Hs Hle) in Hj. simpl in Hj.
  apply not_elem_of_cons in Hj as [Hne Hj].
  assert (0 <= key + SECTION_SIZE) as Hkey' by lia.
  unfold bind at 1 in Hrun. unfold radix_tree_delete at 1 in Hrun.
  rewrite wrap_small in Hrun by lia.
  rewrite <- (shiftr_next_section _ Hs) in Hj.
  rewrite (IH r (key + SECTION_SIZE) _ _ _ Hs Hkey' Hend Hrun j Hj). simpl.
  apply lookup_delete_ne. congruence.
Qed.

Lemma devm_memremap_pages_frame_sections fuel d r s a s' :
  section_shift_ok -> range_ok r ->
  devm_memremap_pages fuel d r s = Some (a, s') ->
  forall j, j ∉ sections_walked r -> pgmap_radix s' !! j = pgmap_radix s !! j.
Proof.
  intros Hs [Hstart Hend] Hrun j Hj. unfold devm_memremap_pages in Hrun.
  destruct (decide (region_intersects (start r) (resource_size r) "System RAM"
                    = REGION_MIXED)).
  { injection Hrun as _ <-. reflexivity. }
  destruct (decide (region_intersects (start r) (resource_size r) "System RAM"
                    = REGION_INTERSECTS)).
  { injection Hrun as _ <-. reflexivity. }
  unfold bind at 1 in Hrun. unfold do_devres_alloc_node, bind, log, ret in Hrun.
  destruct (devres_alloc_ok d).
  2: { injection Hrun as _ <-. reflexivity. }
  simpl ref in Hrun. fold (claim_page_map d r) in Hrun.
  destruct (pgmap_radix_insert_from fuel d r (claim_page_map d r) (start r)
              (emit (call_devres_alloc_node d) s)) as [[error s_ins] |] eqn:Hins;
    [| discriminate].
  pose proof (pgmap_radix_insert_from_frame _ _ _ _ _ _ _ _ Hs Hstart Hend Hins j Hj)
    as Hframe. simpl in Hframe.
  assert (forall e s0, pgmap_radix s0 !! j = pgmap_radix s !! j ->
            match pgmap_radix_release fuel r s0 with
            | Some (_, s1) =>
                match devres_free (claim_page_map d r) s1 with
                | Some (_, s2) => Some (ERR_PTR e, s2)
                | None => None
                end
            | None => None
            end = Some (a, s') -> pgmap_radix s' !! j = pgmap_radix s !! j)
    as Hrollback.
  { intros e s0 Hs0 Hroll.
    destruct (pgmap_radix_release fuel r s0) as [[u s1] |] eqn:Hrel; [| discriminate].
    unfold devres_free, log in Hroll. injection Hroll as _ <-. simpl.
    rewrite (pgmap_radix_release_from_frame _ _ _ _ _ _ Hs Hstart Hend Hrel j Hj).
    assumption. }
  destruct (negb (error =? 0)).
  { exact (Hrollback _ _ Hframe Hrun). }
  unfold do_arch_add_memory, bind, log, ret in Hrun.
  destruct (negb (arch_add_memory _ _ _ true =? 0)).
  { exact (Hrollback _ (emit _ s_ins) Hframe Hrun). }
  unfold devres_add in Hrun. injection Hrun as _ <-. simpl. assumption.
Qed.

Lemma pgmap_radix_insert_from_returns n :
  forall fuel d r pm key s,
    section_shift_ok -> 0 <= key ->
    end_ r + SECTION_SIZE < 2 ^ BITS_PER_LONG ->
    walk_len key (end_ r) = n ->
    (n < fuel)%nat ->
    exists e s', pgmap_radix_insert_from fuel d r pm key s = Some (e, s').
Proof.
  induction n as [| n IH]; intros fuel d r pm key s Hs Hkey Hend Hlen Hfuel.
  - destruct fuel as [| fuel]; [lia |]. simpl.
    apply (walk_len_zero _ _ Hs) in Hlen.
    destruct (Z.leb_spec key (end_ r)); [lia |]. eexists _, _. reflexivity.
  - destruct fuel as [| fuel]; [lia |]. simpl.
    destruct (Z.leb_spec key (end_ r)) as [Hle | Hgt].
    2: { eexists _, _. reflexivity. }
    rewrite (walk_len_step _ _ Hs Hle) in Hlen. injection Hlen as Hlen.
    pose proof (SECTION_SIZE_pos Hs) as Hpos.
    assert (0 <= key + SECTION_SIZE) as Hkey' by lia.
    unfold bind at 1. unfold find_dev_pagemap, bind, radix_tree_lookup, ret.
    destruct (pgmap_radix s !! Z.shiftr key PA_SECTION_SHIFT) as [owner |] eqn:Hdup.
    { unfold log. eexists _, _. reflexivity. }
    unfold radix_tree_insert. simpl. rewrite Hdup.
    destruct (radix_node_alloc_ok (Z.shiftr key PA_SECTION_SHIFT)).
    + simpl. rewrite wrap_small by lia.
      apply (IH fuel d r pm (key + SECTION_SIZE)); try assumption. lia.
    + destruct (negb (- ENOMEM =? 0)).
      * unfold log. eexists _, _. reflexivity.
      * rewrite wrap_small by lia.
        apply (IH fuel d r pm (key + SECTION_SIZE)); try assumption. lia.
Qed.

(** X6: on a range whose walk does not wrap, [devm_memremap_pages]
    returns, and whatever its outcome (success, collision, allocation or
    hotplug failure) it leaves every section outside the walk of its
    range exactly as it was; in particular the answer of
    [find_dev_pagemap] changes for no address whose section holds no
    address of the range. *)
Theorem devm_memremap_pages_frame fuel d r s :
  section_shift_ok -> range_ok r ->
  (walk_len (start r) (end_ r) < fuel)%nat ->
  exists a s',
    devm_memremap_pages fuel d r s = Some (a, s')
    /\ (forall j, j ∉ sections_walked r -> pgmap_radix s' !! j = pgmap_radix s !! j)
    /\ (forall phys, ~ section_covered r (Z.shiftr phys PA_SECTION_SHIFT) ->
                     fst <$> find_dev_pagemap phys s' = fst <$> find_dev_pagemap phys s).
Proof.
  intros Hs Hr Hfuel.
  assert (exists a s', devm_memremap_pages fuel d r s = Some (a, s')) as (a & s' & Hrun).
  { destruct (region_intersects (start r) (resource_size r) "System RAM") eqn:Hclass.
    - unfold devm_memremap_pages. rewrite Hclass.
      rewrite decide_False by discriminate. rewrite decide_True by reflexivity.
      eexists _, _. reflexivity.
    - destruct (devres_alloc_ok d) eqn:Halloc.
      + rewrite (devm_memremap_pages_disjoint fuel d r s Hclass Halloc).
        pose proof Hr as [Hstart Hend].
        destruct (pgmap_radix_insert_from_returns (walk_len (start r) (end_ r)) fuel d r
                    (claim_page_map d r) (start r) (emit (call_devres_alloc_node d) s)
                    Hs Hstart Hend eq_refl Hfuel) as (e & s_ins & Hins).
        rewrite Hins. destruct (negb (e =? 0)).
        * rewrite err_radix_spec by assumption. eexists _, _. reflexivity.
        * cbv zeta. destruct (negb (arch_add_memory _ _ _ true =? 0)).
          -- rewrite err_radix_spec by assumption. eexists _, _. reflexivity.
          -- eexists _, _. reflexivity.
      + unfold devm_memremap_pages. rewrite Hclass.
        rewrite !decide_False by discriminate.
        unfold bind at 1. unfold do_devres_alloc_node, bind, log, ret.
        rewrite Halloc. eexists _, _. reflexivity.
    - unfold devm_memremap_pages. rewrite Hclass.
      rewrite decide_True by reflexivity. eexists _, _. reflexivity. }
  exists a, s'. split; [exact Hrun |].
  pose proof (devm_memremap_pages_frame_sections fuel d r s a s' Hs Hr Hrun) as Hframe.
  split; [exact Hframe |].
  intros phys Hout. unfold find_dev_pagemap, bind, radix_tree_lookup, ret. simpl.
  rewrite Hframe; [reflexivity |].
  intros Hin. apply Hout. apply sections_walked_covered; assumption.
Qed.

(** ** Outcomes of the registration loop *)



(** ** Failed claims *)



(** ** Successful claims *)



(** X11: a successful claim followed by its release hook restores the
    registry, and [arch_remove_memory] is called last, on the same aligned
    range that [arch_add_memory] was given. *)
Theorem claim_then_release fuel d r s :
  section_shift_ok -> range_ok r ->
  (walk_len (start r) (end_ r) < fuel)%nat ->
  region_intersects (start r) (resource_size r) "System RAM" = REGION_DISJOINT ->
  devres_alloc_ok d = true ->
  (forall j, j ∈ sections_walked r ->
             pgmap_radix s !! j = None /\ radix_node_alloc_ok j = true) ->
  arch_add_memory (claim_nid d) (section_align_start r) (section_align_size r) true = 0 ->
  exists s1 s2,
    devm_memremap_pages fuel d r s = Some (__va (start r), s1)
    /\ devm_memremap_pages_release fuel d (claim_page_map d r) s1 = Some (tt, s2)
    /\ pgmap_radix s2 = pgmap_radix s
    /\ trace s2
       = trace s
         ++ [call_devres_alloc_node d]
         ++ map call_radix_tree_insert (sections_walked r)
         ++ [call_arch_add_memory (claim_nid d) (section_align_start r)
               (section_align_size r);
             call_devres_add d]
         ++ map call_radix_tree_delete (sections_walked r)
         ++ [call_arch_remove_memory (section_align_start r) (section_align_size r)].
Proof.
  intros Hs Hr Hfuel Hclass Halloc Hfree Hok.
  rewrite (devm_memremap_pages_registered fuel d r s) by assumption.
  rewrite Hok. simpl negb. cbv iota.
  eexists _, _. split; [reflexivity |].
  unfold devm_memremap_pages_release, bind. simpl res.
  rewrite pgmap_radix_release_spec by assumption.
  split; [reflexivity |]. simpl. split.
  - apply delete_all_insert_all. intros j Hj. apply (Hfree j Hj).
  - rewrite <- !app_assoc. reflexivity.
Qed.

(** ** Release and the bounds of the walk *)


(** X20: after the release hook has run on a range whose start lies no
    deeper in its section than its end does, no address of the range has
    an owner any more, whoever owned its section before. *)
Theorem release_then_lookup fuel d pm s :
  section_shift_ok -> range_ok (res pm) ->
  (walk_len (start (res pm)) (end_ (res pm)) < fuel)%nat ->
  start (res pm) mod SECTION_SIZE <= end_ (res pm) mod SECTION_SIZE ->
  exists s',
    devm_memremap_pages_release fuel d pm s = Some (tt, s')
    /\ forall phys, start (res pm) <= phys <= end_ (res pm) ->
                    find_dev_pagemap phys s' = Some (None, s').
Proof.
  intros Hs Hr Hfuel Hoff. unfold devm_memremap_pages_release, bind.
  rewrite pgmap_radix_release_spec by assumption.
  eexists. split; [reflexivity |].
  intros phys Hphys. unfold find_dev_pagemap, bind, radix_tree_lookup, ret. simpl.
  rewrite lookup_delete_all. rewrite decide_True; [reflexivity |].
  apply sections_walked_complete; try assumption.
  exists phys. split; [assumption | reflexivity].
Qed.

(** X13: a claim of an empty resource ([end] below [start]) on device
    memory registers no section but still calls [arch_add_memory] and,
    when that succeeds, registers its hook and returns the linear address. *)
Theorem empty_range_claim fuel d r s :
  end_ r < start r ->
  (0 < fuel)%nat ->
  region_intersects (start r) (resource_size r) "System RAM" = REGION_DISJOINT ->
  devres_alloc_ok d = true ->
  arch_add_memory (claim_nid d) (section_align_start r) (section_align_size r) true = 0 ->
  exists s',
    devm_memremap_pages fuel d r s = Some (__va (start r), s')
    /\ pgmap_radix s' = pgmap_radix s
    /\ devres s' = (d, claim_page_map d r) :: devres s
    /\ trace s'
       = trace s ++ [call_devres_alloc_node d;
                     call_arch_add_memory (claim_nid d) (section_align_start r)
                       (section_align_size r);
                     call_devres_add d].
Proof.
  intros Hempty Hfuel Hclass Halloc Hok.
  rewrite (devm_memremap_pages_disjoint fuel d r s Hclass Halloc).
  destruct fuel as [| fuel]; [lia |]. cbn [pgmap_radix_insert_from].
  destruct (Z.leb_spec (start r) (end_ r)); [lia |].
  unfold ret. cbn [Z.eqb negb]. cbv zeta. rewrite Hok. cbn [Z.eqb negb].
  eexists. split; [reflexivity |]. simpl. split; [reflexivity |].
  split; [reflexivity |]. rewrite <- !app_assoc. reflexivity.
Qed.

Lemma pgmap_radix_release_from_diverges fuel :
  forall r key s,
    section_shift_ok ->
    2 ^ BITS_PER_LONG - 1 <= end_ r ->
    0 <= key < 2 ^ BITS_PER_LONG ->
    pgmap_radix_release_from fuel r key s = None.
Proof.
  induction fuel as [| fuel IH]; intros r key s Hs Hend Hkey; simpl.
  - reflexivity.
  - destruct (Z.leb_spec key (end_ r)); [| lia].
    unfold bind at 1. unfold radix_tree_delete at 1.
    apply IH; try assumption.
    unfold wrap. apply Z.mod_pos_bound. lia.
Qed.

(** X14: on a resource that ends at the top of the address space the
    loop test [key <= res->end] never fails, because [key] wraps:
    [pgmap_radix_release] does not return, however long it runs. *)
Theorem pgmap_radix_release_top_of_memory fuel r s :
  section_shift_ok ->
  end_ r = 2 ^ BITS_PER_LONG - 1 ->
  0 <= start r < 2 ^ BITS_PER_LONG ->
  pgmap_radix_release fuel r s = None.
Proof.
  intros Hs Hend Hstart. unfold pgmap_radix_release.
  apply pgmap_radix_release_from_diverges; try assumption. lia.
Qed.

Lemma pgmap_radix_release_from_wraps fuel :
  forall r key s,
    section_shift_ok ->
    2 ^ BITS_PER_LONG - SECTION_SIZE <= end_ r ->
    key mod SECTION_SIZE = 0 ->
    0 <= key < 2 ^ BITS_PER_LONG ->
    pgmap_radix_release_from fuel r key s = None.
Proof.
  induction fuel as [| fuel IH]; intros r key s Hs Hend Hmod Hkey; simpl.
  - reflexivity.
  - pose proof (SECTION_SIZE_pos Hs) as Hpos.
    assert (2 ^ BITS_PER_LONG
            = SECTION_SIZE * 2 ^ (BITS_PER_LONG - PA_SECTION_SHIFT)) as Htop.
    { rewrite (SECTION_SIZE_pow2 Hs). rewrite <- Z.pow_add_r by (destruct Hs; lia).
      f_equal. lia. }
    assert (key = SECTION_SIZE * (key / SECTION_SIZE)) as Hq
      by (apply Z.div_exact; lia).
    assert (key + SECTION_SIZE <= 2 ^ BITS_PER_LONG) as Hnext.
    { rewrite Htop. rewrite Htop in Hkey.
      set (q := key / SECTION_SIZE) in *.
      set (t := 2 ^ (BITS_PER_LONG - PA_SECTION_SHIFT)) in *.
      assert (q < t) by nia. nia. }
    destruct (Z.leb_spec key (end_ r)); [| lia].
    unfold bind at 1. unfold radix_tree_delete at 1.
    apply IH; try assumption.
    + unfold wrap.
      destruct (Z.eq_dec (key + SECTION_SIZE) (2 ^ BITS_PER_LONG)) as [Heq | Hne].
      * rewrite Heq, Z.mod_same by lia. apply Z.mod_0_l. lia.
      * rewrite (Z.mod_small (key + SECTION_SIZE) (2 ^ BITS_PER_LONG)) by lia.
        replace (key + SECTION_SIZE) with (key + 1 * SECTION_SIZE) by lia.
        rewrite Z.mod_add by lia. assumption.
    + unfold wrap. apply Z.mod_pos_bound. lia.
Qed.

End RegistryMore.

(** C9, as stated, fails: on the last section of the address space, with
    the registry empty (so every section of the range is absent),
    [pgmap_radix_release] does not return, however long it runs: [key]
    wraps to zero and the test [key <= res->end] keeps holding. *)
Lemma pgmap_radix_release_near_top_never_returns :
  (forall j, pgmap_radix empty_state !! j = None)
  /\ ~ exists fuel s',
        pgmap_radix_release (P := zone_device 0) fuel range_near_top empty_state
        = Some (tt, s').
Proof.
  split; [intros j; apply lookup_empty |].
  intros (fuel & s' & Hrun).
  unfold pgmap_radix_release in Hrun.
  rewrite (pgmap_radix_release_from_wraps (P := zone_device 0)) in Hrun.
  - discriminate.
  - unfold section_shift_ok. simpl. lia.
  - vm_compute. discriminate.
  - vm_compute. reflexivity.
  - vm_compute. split; [discriminate | reflexivity].
Qed.

(** * Properties of memunmap and the devm_memremap family *)

Section DevmMore.
Context `{P : Platform} `{U : UnmapPlatform}.

Implicit Types (ds : devm_state) (l : list (device * Z)).

Lemma devres_node_mismatch d a d' res :
  (d', res) <> (d, a) -> (d' =? d) && devm_memremap_match d res a = false.
Proof.
  intros Hne. unfold devm_memremap_match.
  destruct (Z.eqb_spec d' d) as [-> | Hd]; [| reflexivity].
  destruct (Z.eqb_spec res a) as [-> | Hres]; [| reflexivity].
  contradiction.
Qed.

Lemma devres_remove_first d a l1 l2 :
  (forall e, e ∈ l1 -> e <> (d, a)) ->
  devres_remove d a (l1 ++ (d, a) :: l2) = Some (a, l1 ++ l2).
Proof.
  induction l1 as [| [d' res] l1 IH]; intros Hnot; simpl.
  - unfold devm_memremap_match. rewrite !Z.eqb_refl. reflexivity.
  - rewrite devres_node_mismatch by (apply Hnot; apply elem_of_cons; auto).
    rewrite IH; [reflexivity |].
    intros e He. apply Hnot. apply elem_of_cons. auto.
Qed.

Lemma devres_remove_none d a l :
  (forall e, e ∈ l -> e <> (d, a)) -> devres_remove d a l = None.
Proof.
  induction l as [| [d' res] l IH]; intros Hnot; simpl; [reflexivity |].
  rewrite devres_node_mismatch by (apply Hnot; apply elem_of_cons; auto).
  rewrite IH; [reflexivity |].
  intros e He. apply Hnot. apply elem_of_cons. auto.
Qed.

(** X15: [devm_memremap] fails without a mapping in two ways.  When the
    devres node cannot be allocated it returns [ERR_PTR(-ENOMEM)] and
    [memremap] is not called at all; when [memremap] returns NULL, for
    whatever reason, it frees the node and returns [ERR_PTR(-ENXIO)].
    Neither path registers a node. *)
Theorem devm_memremap_failure d offset size flags ds :
  (devres_alloc_ok d = false ->
   devm_memremap d offset size flags ds
   = Some (ERR_PTR (- ENOMEM),
           set_core (emit (call_devres_alloc_node d) (core ds)) ds))
  /\ (forall s1,
        devres_alloc_ok d = true ->
        memremap offset size flags (emit (call_devres_alloc_node d) (core ds))
        = Some (NULL, s1) ->
        devm_memremap d offset size flags ds
        = Some (ERR_PTR (- ENXIO), set_core (emit call_devres_free s1) ds)).
Proof.
  split.
  - intros Halloc. unfold devm_memremap, dbind, lift, do_devres_alloc_ptr, bind, log, ret.
    simpl. rewrite Halloc. reflexivity.
  - intros s1 Halloc Hremap.
    unfold devm_memremap, dbind, lift, do_devres_alloc_ptr, bind, log, ret.
    simpl. rewrite Halloc. simpl. rewrite Hremap. reflexivity.
Qed.

(** X16: a successful [devm_memremap] returns the address [memremap]
    produced and registers it for the device; [devm_memunmap] of that
    address then unlinks the node again, calls [iounmap] exactly when the
    address is a vmalloc address, and raises no warning. *)
Theorem devm_memremap_then_memunmap d offset size flags ds addr s1 :
  devres_alloc_ok d = true ->
  memremap offset size flags (emit (call_devres_alloc_node d) (core ds))
  = Some (addr, s1) ->
  addr <> NULL ->
  exists ds1 ds2,
    devm_memremap d offset size flags ds = Some (addr, ds1)
    /\ memremap_devres ds1 = (d, addr) :: memremap_devres ds
    /\ devm_memunmap d addr ds1 = Some (tt, ds2)
    /\ memremap_devres ds2 = memremap_devres ds
    /\ unmap_trace ds2
       = unmap_trace ds ++ (if is_vmalloc_addr addr then [call_iounmap addr] else [])
    /\ core ds2 = emit (call_devres_add d) s1.
Proof.
  intros Halloc Hremap Hnn.
  unfold devm_memremap, dbind, lift, do_devres_alloc_ptr, bind, log, ret.
  simpl. rewrite Halloc. simpl. rewrite Hremap.
  apply Z.eqb_neq in Hnn. rewrite Hnn. simpl.
  exists {| core := emit (call_devres_add d) s1;
            memremap_devres := (d, addr) :: memremap_devres ds;
            unmap_trace := unmap_trace ds |}.
  unfold devm_memunmap, dbind, devres_release. simpl.
  unfold devm_memremap_match. rewrite !Z.eqb_refl. simpl.
  unfold devm_memremap_release, memunmap.
  destruct (is_vmalloc_addr addr); simpl;
    eexists; (split; [reflexivity |]); (split; [reflexivity |]);
    (split; [reflexivity |]); simpl; (split; [reflexivity |]).
  - split; reflexivity.
  - split; [symmetry; apply app_nil_r | reflexivity].
Qed.

(** X17: [devm_memunmap] releases the most recently registered node of
    the device that holds the address and keeps every other node, also
    older nodes for the same address. *)
Theorem devm_memunmap_most_recent d addr l1 l2 ds :
  memremap_devres ds = l1 ++ (d, addr) :: l2 ->
  (forall e, e ∈ l1 -> e <> (d, addr)) ->
  exists ds',
    devm_memunmap d addr ds = Some (tt, ds')
    /\ memremap_devres ds' = l1 ++ l2
    /\ unmap_trace ds'
       = unmap_trace ds ++ (if is_vmalloc_addr addr then [call_iounmap addr] else [])
    /\ core ds' = core ds.
Proof.
  intros Hlist Hnot. unfold devm_memunmap, dbind, devres_release.
  rewrite Hlist. rewrite devres_remove_first by assumption.
  unfold devm_memremap_release, memunmap.
  destruct (is_vmalloc_addr addr); simpl;
    eexists; (split; [reflexivity |]); simpl; (split; [reflexivity |]).
  - split; reflexivity.
  - split; [symmetry; apply app_nil_r | reflexivity].
Qed.

(** X18: [devm_memunmap] of an address the device holds no node for
    raises the [WARN_ON], unmaps nothing and keeps the devres list. *)
Theorem devm_memunmap_unknown d addr ds :
  ENOENT <> 0 ->
  (forall e, e ∈ memremap_devres ds -> e <> (d, addr)) ->
  devm_memunmap d addr ds
  = Some (tt, emit_unmap (WARN_ON_devres_release d addr) ds).
Proof.
  intros Hnoent Hnot. unfold devm_memunmap, dbind, devres_release.
  rewrite devres_remove_none by assumption.
  assert ((- ENOENT =? 0) = false) as -> by (apply Z.eqb_neq; lia).
  reflexivity.
Qed.


End DevmMore.

(** * The further properties at concrete inputs *)

Lemma range_ok_zone_device hotplug_result r :
  0 <= start r -> end_ r < 0xffffffff00000000 ->
  range_ok (P := zone_device hotplug_result) r.
Proof.
  intros H0 H1. unfold range_ok. split; [assumption |].
  change (SECTION_SIZE (P := zone_device hotplug_result)) with 0x8000000.
  change (2 ^ @BITS_PER_LONG (zone_device hotplug_result)) with 0x10000000000000000.
  lia.
Defined.

Lemma sections_C_free (P' : Platform) j :
  j ∈ [34; 35] -> pgmap_radix claimed_A !! j = None.
Proof.
  intros Hj.
  apply elem_of_cons in Hj as [-> | Hj]; [vm_compute; reflexivity |].
  apply list_elem_of_singleton in Hj as ->. vm_compute. reflexivity.
Defined.

Lemma memremap_ram_without_wb_witness :
  memremap (P := zone_device 0) 0x100000 0x1000 2 empty_state
  = Some (NULL, emit (WARN_memremap_ram 0x100000 0x1000) empty_state).
Proof.
  apply (memremap_ram_without_wb (P := zone_device 0)).
  - vm_compute. reflexivity.
  - vm_compute. reflexivity.
  - discriminate.
Defined.

Lemma memremap_ram_wb_any_flags_witness :
  memremap (P := zone_device 0) 0x100000 0x1000 7 empty_state
  = Some (try_ram_remap (P := zone_device 0) 0x100000 0x1000, empty_state).
Proof.
  apply (memremap_ram_wb_any_flags (P := zone_device 0)).
  - vm_compute. reflexivity.
  - vm_compute. discriminate.
  - vm_compute. discriminate.
Defined.

Lemma memremap_ram_never_wt_witness :
  exists a events,
    memremap (P := highmem_machine_no_ioremap) 0x3c000000 0x1000 3 empty_state
    = Some (a, {| pgmap_radix := ∅; devres := []; trace := [] ++ events |})
    /\ (events = []
        \/ events = [WARN_memremap_ram 0x3c000000 0x1000]
        \/ events = [call_ioremap_cache 0x3c000000 0x1000]
        \/ events = [call_ioremap_cache 0x3c000000 0x1000;
                     WARN_memremap_ram 0x3c000000 0x1000])
    /\ forall o z, call_ioremap_wt o z ∉ events.
Proof.
  apply (memremap_ram_never_wt (P := highmem_machine_no_ioremap) 0x3c000000 0x1000 3
           empty_state).
  vm_compute. reflexivity.
Defined.

Lemma flags_ok_zone_device hotplug_result : flags_ok (P := zone_device hotplug_result).
Proof.
  unfold flags_ok. simpl. repeat split; try reflexivity. discriminate.
Defined.

Lemma memremap_disjoint_single_flag_witness :
  memremap (P := zone_device 0) 0x100000000 0x1000 (@MEMREMAP_WB (zone_device 0))
    empty_state
  = Some (0xffffc90000000000, emit (call_ioremap_cache 0x100000000 0x1000) empty_state)
  /\ memremap (P := zone_device 0) 0x100000000 0x1000 (@MEMREMAP_WT (zone_device 0))
       empty_state
     = Some (0xffffc90000000000, emit (call_ioremap_wt 0x100000000 0x1000) empty_state).
Proof.
  apply (memremap_disjoint_single_flag (P := zone_device 0) 0x100000000 0x1000
           empty_state).
  - vm_compute. reflexivity.
  - apply flags_ok_zone_device.
Defined.

Lemma memremap_disjoint_wb_wt_witness :
  memremap (P := zone_device 0) 0x100000000 0x1000
    (Z.lor (@MEMREMAP_WB (zone_device 0)) (@MEMREMAP_WT (zone_device 0))) empty_state
  = Some (0xffffc90000000000, emit (call_ioremap_cache 0x100000000 0x1000) empty_state).
Proof.
  rewrite (memremap_disjoint_wb_wt (P := zone_device 0) 0x100000000 0x1000 empty_state).
  - reflexivity.
  - vm_compute. reflexivity.
  - apply flags_ok_zone_device.
Defined.

Lemma devm_memremap_pages_frame_witness :
  exists a s',
    devm_memremap_pages (P := zone_device (-12)) 8 dev_B range_C claimed_A
    = Some (a, s')
    /\ pgmap_radix s' !! 32 = Some (claim_page_map dev_A range_A)
    /\ fst <$> find_dev_pagemap (P := zone_device (-12)) 0x100000000 s'
       = Some (Some {| dev := dev_A |}).
Proof.
  destruct (devm_memremap_pages_frame (P := zone_device (-12)) 8 dev_B range_C claimed_A)
    as (a & s' & Hrun & Hsections & Haddresses).
  - apply section_shift_ok_zone_device.
  - apply range_ok_zone_device; vm_compute; [discriminate | reflexivity].
  - vm_compute. lia.
  - exists a, s'. split; [exact Hrun |]. split.
    + rewrite Hsections; [vm_compute; reflexivity |].
      assert (sections_walked (P := zone_device (-12)) range_C = [34; 35]) as ->
        by (vm_compute; reflexivity).
      intros Hin. apply elem_of_cons in Hin as [Hin | Hin]; [discriminate |].
      apply list_elem_of_singleton in Hin. discriminate.
    + rewrite Haddresses; [vm_compute; reflexivity |].
      intros (phys & [Hlo Hhi] & Hsec).
      assert (0 <= @PA_SECTION_SHIFT (zone_device (-12))) as Hshift
        by (simpl; lia).
      pose proof (shiftr_le (P := zone_device (-12)) (start range_C) phys Hshift Hlo)
        as Hle.
      rewrite Hsec in Hle. vm_compute in Hle. apply Hle. reflexivity.
Defined.



Lemma sections_C_claimable (hotplug_result : Z) j :
  j ∈ sections_walked (P := zone_device hotplug_result) range_C ->
  pgmap_radix claimed_A !! j = None
  /\ radix_node_alloc_ok (Platform := zone_device hotplug_result) j = true.
Proof.
  assert (sections_walked (P := zone_device hotplug_result) range_C = [34; 35]) as ->
    by (vm_compute; reflexivity).
  intros Hj. split; [| reflexivity].
  apply (sections_C_free (zone_device hotplug_result)). assumption.
Defined.



Lemma claim_then_release_witness :
  exists s1 s2,
    devm_memremap_pages (P := zone_device 0) 8 dev_B range_C claimed_A
    = Some (@__va (zone_device 0) (start range_C), s1)
    /\ devm_memremap_pages_release (P := zone_device 0) 8 dev_B
         (claim_page_map dev_B range_C) s1 = Some (tt, s2)
    /\ pgmap_radix s2 = pgmap_radix claimed_A.
Proof.
  destruct (claim_then_release (P := zone_device 0) 8 dev_B range_C claimed_A)
    as (s1 & s2 & Hclaim & Hrelease & Hsame & _).
  - apply section_shift_ok_zone_device.
  - apply range_ok_zone_device; vm_compute; [discriminate | reflexivity].
  - vm_compute. lia.
  - vm_compute. reflexivity.
  - reflexivity.
  - apply sections_C_claimable.
  - reflexivity.
  - exists s1, s2. auto.
Defined.


Lemma empty_range_claim_witness :
  exists s',
    devm_memremap_pages (P := zone_device 0) 1 dev_B range_empty claimed_A
    = Some (@__va (zone_device 0) (start range_empty), s')
    /\ pgmap_radix s' = pgmap_radix claimed_A
    /\ devres s' = (dev_B, claim_page_map dev_B range_empty) :: devres claimed_A.
Proof.
  destruct (empty_range_claim (P := zone_device 0) 1 dev_B range_empty claimed_A)
    as (s' & Hrun & Hradix & Hhook & _).
  - vm_compute. reflexivity.
  - lia.
  - vm_compute. reflexivity.
  - reflexivity.
  - reflexivity.
  - exists s'. auto.
Defined.

Lemma pgmap_radix_release_top_of_memory_witness :
  pgmap_radix_release (P := zone_device 0) 1000 range_top empty_state = None.
Proof.
  apply (pgmap_radix_release_top_of_memory (P := zone_device 0)).
  - apply section_shift_ok_zone_device.
  - vm_compute. reflexivity.
  - vm_compute. split; [discriminate | reflexivity].
Defined.

Lemma devm_memremap_failure_witness :
  devm_memremap (P := zone_device_devres_oom) dev_A 0x100000000 0x1000 1
    empty_devm_state
  = Some (@ERR_PTR zone_device_devres_oom (-12),
          set_core (emit (call_devres_alloc_node dev_A) empty_state) empty_devm_state)
  /\ devm_memremap (P := zone_device 0) dev_A 0xfc000000 0x8000000 1 empty_devm_state
     = Some (@ERR_PTR (zone_device 0) (-6),
             set_core
               (emit call_devres_free
                  (emit (WARN_memremap_mixed 0xfc000000 0x8000000)
                     (emit (call_devres_alloc_node dev_A) empty_state)))
               empty_devm_state).
Proof.
  split.
  - apply (devm_memremap_failure (P := zone_device_devres_oom) dev_A 0x100000000 0x1000 1
             empty_devm_state).
    reflexivity.
  - apply (devm_memremap_failure (P := zone_device 0) dev_A 0xfc000000 0x8000000 1
             empty_devm_state).
    + reflexivity.
    + vm_compute. reflexivity.
Defined.

Lemma devm_memremap_then_memunmap_witness :
  exists ds1 ds2,
    devm_memremap (P := zone_device 0) dev_A 0x100000000 0x1000 1 empty_devm_state
    = Some (0xffffc90000000000, ds1)
    /\ devm_memunmap (U := vmalloc_above 0xffffc90000000000) dev_A 0xffffc90000000000 ds1
       = Some (tt, ds2)
    /\ memremap_devres ds2 = []
    /\ unmap_trace ds2 = [call_iounmap 0xffffc90000000000].
Proof.
  destruct (devm_memremap_then_memunmap (P := zone_device 0)
              (U := vmalloc_above 0xffffc90000000000) dev_A 0x100000000 0x1000 1
              empty_devm_state 0xffffc90000000000
              (emit (call_ioremap_cache 0x100000000 0x1000)
                 (emit (call_devres_alloc_node dev_A) empty_state)))
    as (ds1 & ds2 & Hmap & _ & Hunmap & Hlist & Htrace & _).
  - reflexivity.
  - vm_compute. reflexivity.
  - discriminate.
  - exists ds1, ds2. auto.
Defined.

Lemma devm_memunmap_most_recent_witness :
  exists ds',
    devm_memunmap (U := vmalloc_above 0xffffc90000000000) dev_A 5
      {| core := empty_state;
         memremap_devres := [(dev_A, 7); (dev_A, 5); (dev_A, 5)];
         unmap_trace := [] |}
    = Some (tt, ds')
    /\ memremap_devres ds' = [(dev_A, 7); (dev_A, 5)].
Proof.
  destruct (devm_memunmap_most_recent (U := vmalloc_above 0xffffc90000000000)
              dev_A 5 [(dev_A, 7)] [(dev_A, 5)]
              {| core := empty_state;
                 memremap_devres := [(dev_A, 7); (dev_A, 5); (dev_A, 5)];
                 unmap_trace := [] |})
    as (ds' & Hrun & Hlist & _).
  - reflexivity.
  - intros e He. apply list_elem_of_singleton in He as ->. discriminate.
  - exists ds'. auto.
Defined.

Lemma devm_memunmap_unknown_witness :
  devm_memunmap (U := vmalloc_above 0xffffc90000000000) dev_A 5 empty_devm_state
  = Some (tt, emit_unmap (WARN_ON_devres_release dev_A 5) empty_devm_state).
Proof.
  apply (devm_memunmap_unknown (U := vmalloc_above 0xffffc90000000000)).
  - simpl. discriminate.
  - intros e He. inversion He.
Defined.


Lemma release_then_lookup_witness :
  exists s',
    devm_memremap_pages_release (P := zone_device 0) 8 dev_A
      (claim_page_map dev_A range_A) claimed_A = Some (tt, s')
    /\ forall phys, start range_A <= phys <= end_ range_A ->
                    find_dev_pagemap (P := zone_device 0) phys s' = Some (None, s').
Proof.
  apply (release_then_lookup (P := zone_device 0) 8 dev_A
           (claim_page_map dev_A range_A) claimed_A).
  - apply section_shift_ok_zone_device.
  - apply range_ok_zone_device; vm_compute; [discriminate | reflexivity].
  - vm_compute. lia.
  - vm_compute. discriminate.
Defined.
